(** * Managed child-process execution layer (utils/spawnAsync.ts)

    A shallow embedding of [spawnAsync], [spawnStreamAsync], [execAsync],
    [execStreamAsync], [bufferToString] and [fixPathForMacIfNeeded], together
    with the small part of the JavaScript, Node.js and VS Code runtime they
    run on (UTF-16 strings, [Buffer], regular expressions, promises, child
    process events, cancellation tokens). *)

From Stdlib Require Import NArith ZArith Ascii String List Bool Lia.
From stdpp Require Import base gmap strings list pretty.
Import ListNotations.

(** ** JavaScript strings

    A JavaScript string is a sequence of UTF-16 code units. *)
Module JS.

Definition jsstring := list N.

(** A literal of the source text (all literals of the source are ASCII). *)
Definition lit (s : string) : jsstring :=
  map N_of_ascii (list_ascii_of_string s).

(** [s.substring(0, n)] *)
Definition substring0 (n : nat) (s : jsstring) : jsstring := take n s.

(** [String(v)] of a number that is an integer. *)
Definition ofZ (z : Z) : jsstring := lit (pretty z).

(** A value interpolated in a template literal, or passed where a string is
    expected: [undefined] prints as the nine letters of its name. *)
Definition ofOption (v : option jsstring) : jsstring :=
  match v with
  | Some s => s
  | None => lit "undefined"
  end.

(** Truthiness of an optional string: [undefined] and [''] are falsy. *)
Definition truthyStr (v : option jsstring) : bool :=
  match v with
  | Some (_ :: _) => true
  | _ => false
  end.

(** Truthiness of [number | null]: [null] and [0] are falsy. *)
Definition truthyNum (v : option Z) : bool :=
  match v with
  | Some n => negb (n =? 0)%Z
  | None => false
  end.

End JS.
Import JS.

(** ** Node.js buffers

    A [Buffer] is a fixed-length array of bytes.  [toString] decodes UTF-8
    (ill-formed input gives U+FFFD, one per maximal subpart), [write] encodes
    UTF-8 at an offset and stops at the last character that fits. *)
Module Buffer.

Definition t := list Byte.byte.

Definition byteOfN (n : N) : Byte.byte :=
  match Byte.of_N n with
  | Some b => b
  | None => Byte.x00
  end.

(** [Buffer.alloc(size)]: zero filled. *)
Definition alloc (size : nat) : t := replicate size Byte.x00.

(** [Buffer.from(text)] for an ASCII literal. *)
Definition ofString (s : string) : t :=
  map byte_of_ascii (list_ascii_of_string s).

(** [Buffer.concat(chunks)] *)
Definition concat (chunks : list t) : t := List.concat chunks.

Definition replacement : N := 0xFFFD%N.

(** UTF-16 code units of one code point. *)
Definition unitsOfCodePoint (cp : N) : jsstring :=
  if (cp <? 0x10000)%N then [cp]
  else [ (0xD800 + N.shiftr (cp - 0x10000) 10)%N;
         (0xDC00 + N.land (cp - 0x10000) 0x3FF)%N ].

(** The decoder's pending multi-byte sequence: the code point so far, the
    number of continuation bytes still needed, and the range that the next
    byte must lie in. *)
Record pending := Pending { pcp : N; pneed : nat; plo : N; phi : N }.

Fixpoint decode (st : option pending) (bs : list Byte.byte) : list N :=
  match bs with
  | [] => match st with Some _ => [replacement] | None => [] end
  | byte :: rest =>
      let b := Byte.to_N byte in
      let start :=
        if (b <=? 0x7F)%N then b :: decode None rest
        else if ((0xC2 <=? b) && (b <=? 0xDF))%N then
          decode (Some (Pending (N.land b 0x1F) 1 0x80 0xBF)) rest
        else if ((0xE0 <=? b) && (b <=? 0xEF))%N then
          decode (Some (Pending (N.land b 0xF) 2
                          (if (b =? 0xE0)%N then 0xA0 else 0x80)
                          (if (b =? 0xED)%N then 0x9F else 0xBF))%N) rest
        else if ((0xF0 <=? b) && (b <=? 0xF4))%N then
          decode (Some (Pending (N.land b 0x7) 3
                          (if (b =? 0xF0)%N then 0x90 else 0x80)
                          (if (b =? 0xF4)%N then 0x8F else 0xBF))%N) rest
        else replacement :: decode None rest in
      match st with
      | None => start
      | Some p =>
          if ((plo p <=? b) && (b <=? phi p))%N then
            let cp := (N.shiftl (pcp p) 6 + N.land b 0x3F)%N in
            match pneed p with
            | S (S n) => decode (Some (Pending cp (S n) 0x80 0xBF)%N) rest
            | _ => cp :: decode None rest
            end
          else replacement :: start
      end
  end.

(** [buffer.toString()] *)
Definition toString (buffer : t) : jsstring :=
  flat_map unitsOfCodePoint (decode None buffer).

Definition isHighSurrogate (c : N) : bool := ((0xD800 <=? c) && (c <=? 0xDBFF))%N.
Definition isLowSurrogate (c : N) : bool := ((0xDC00 <=? c) && (c <=? 0xDFFF))%N.

Definition encodeCodePoint (cp : N) : t :=
  map byteOfN
    (if (cp <? 0x80)%N then [cp]
     else if (cp <? 0x800)%N then
       [N.lor 0xC0 (N.shiftr cp 6); N.lor 0x80 (N.land cp 0x3F)]
     else if (cp <? 0x10000)%N then
       [N.lor 0xE0 (N.shiftr cp 12);
        N.lor 0x80 (N.land (N.shiftr cp 6) 0x3F);
        N.lor 0x80 (N.land cp 0x3F)]
     else
       [N.lor 0xF0 (N.shiftr cp 18);
        N.lor 0x80 (N.land (N.shiftr cp 12) 0x3F);
        N.lor 0x80 (N.land (N.shiftr cp 6) 0x3F);
        N.lor 0x80 (N.land cp 0x3F)])%N.

(** The UTF-8 encoding of a string, one group of bytes per character; a
    surrogate pair is one character, a lone surrogate becomes U+FFFD. *)
Fixpoint encodeChars (s : jsstring) : list t :=
  match s with
  | [] => []
  | c :: rest =>
      if isHighSurrogate c then
        match rest with
        | d :: rest' =>
            if isLowSurrogate d then
              encodeCodePoint (0x10000 + N.shiftl (c - 0xD800) 10 + (d - 0xDC00))%N
                :: encodeChars rest'
            else encodeCodePoint replacement :: encodeChars rest
        | [] => [encodeCodePoint replacement]
        end
      else if isLowSurrogate c then encodeCodePoint replacement :: encodeChars rest
      else encodeCodePoint c :: encodeChars rest
  end.

(** The bytes of the longest prefix of whole characters that fits in [room]. *)
Fixpoint fitting (room : nat) (groups : list t) : t :=
  match groups with
  | [] => []
  | g :: gs =>
      if length g <=? room then g ++ fitting (room - length g) gs
      else []
  end.

(** [buffer.write(data, offset)]: the buffer afterwards and the number of
    bytes written, or [None] when the call throws a [RangeError] (the offset
    lies beyond the end of the buffer). *)
Definition write (buffer : t) (data : jsstring) (offset : nat) : option (t * nat) :=
  if length buffer <? offset then None
  else
    let bytes := fitting (length buffer - offset) (encodeChars data) in
    Some (take offset buffer ++ bytes ++ drop (offset + length bytes) buffer,
          length bytes).

End Buffer.

(** ** Regular expressions

    The fragment of ECMAScript regular expressions used by the source:
    characters, character classes, [?], sequence, alternation, the anchors
    [^] and [$] (without the [m] flag), lookahead and lookbehind, and the
    flags [i] and [g].  Matching is the backtracking matcher of the
    specification, written with continuations; a lookbehind matches
    backwards. *)
Module RegExp.

Inductive regex :=
| Eps
| Chr (c : N)
| Class (ranges : list (N * N))
| Opt (r : regex)
| Seq (r1 r2 : regex)
| Alt (r1 r2 : regex)
| Bol
| Eol
| Lookahead (r : regex)
| Lookbehind (r : regex).

(** A position in the input: the text before it (nearest character first)
    and the text after it. *)
Record cursor := Cursor { before : jsstring; after : jsstring }.

Inductive direction := Forward | Backward.

(** Canonicalize of the [i] flag.  It agrees with ECMAScript on the
    comparisons made here, where one side is always an ASCII character of the
    pattern: a character outside ASCII never canonicalizes into ASCII. *)
Definition canonicalize (c : N) : N :=
  if ((0x61 <=? c) && (c <=? 0x7A))%N then (c - 0x20)%N else c.

Definition sameChar (icase : bool) (p c : N) : bool :=
  if icase then (canonicalize p =? canonicalize c)%N else (p =? c)%N.

Definition inRanges (ranges : list (N * N)) (c : N) : bool :=
  existsb (fun r => ((fst r <=? c) && (c <=? snd r))%N) ranges.

(** One character in the given direction, when it satisfies [ok]. *)
Definition step (d : direction) (ok : N -> bool) (z : cursor)
    (k : cursor -> option cursor) : option cursor :=
  match d with
  | Forward =>
      match after z with
      | x :: a => if ok x then k (Cursor (x :: before z) a) else None
      | [] => None
      end
  | Backward =>
      match before z with
      | x :: b => if ok x then k (Cursor b (x :: after z)) else None
      | [] => None
      end
  end.

Fixpoint rmatch (icase : bool) (r : regex) (d : direction) (z : cursor)
    (k : cursor -> option cursor) : option cursor :=
  match r with
  | Eps => k z
  | Chr c => step d (sameChar icase c) z k
  | Class ranges => step d (inRanges ranges) z k
  | Opt r1 =>
      match rmatch icase r1 d z k with
      | Some e => Some e
      | None => k z
      end
  | Seq r1 r2 =>
      match d with
      | Forward => rmatch icase r1 d z (fun z' => rmatch icase r2 d z' k)
      | Backward => rmatch icase r2 d z (fun z' => rmatch icase r1 d z' k)
      end
  | Alt r1 r2 =>
      match rmatch icase r1 d z k with
      | Some e => Some e
      | None => rmatch icase r2 d z k
      end
  | Bol => match before z with [] => k z | _ => None end
  | Eol => match after z with [] => k z | _ => None end
  | Lookahead r1 =>
      match rmatch icase r1 Forward z Some with
      | Some _ => k z
      | None => None
      end
  | Lookbehind r1 =>
      match rmatch icase r1 Backward z Some with
      | Some _ => k z
      | None => None
      end
  end.

(** A match that starts at [z]: the position where it ends. *)
Definition matchAt (icase : bool) (r : regex) (z : cursor) : option cursor :=
  rmatch icase r Forward z Some.

(** A literal word. *)
Fixpoint word (w : jsstring) : regex :=
  match w with
  | [] => Eps
  | c :: w' => Seq (Chr c) (word w')
  end.

Fixpoint testFrom (icase : bool) (r : regex) (bef aft : jsstring) : bool :=
  match matchAt icase r (Cursor bef aft) with
  | Some _ => true
  | None =>
      match aft with
      | [] => false
      | x :: a => testFrom icase r (x :: bef) a
      end
  end.

(** [r.test(s)] for a regular expression without the [g] flag. *)
Definition test (icase : bool) (r : regex) (s : jsstring) : bool :=
  testFrom icase r [] s.

(** [s.replace(r, repl)] for [r] with the [g] flag and a replacement text
    without [$] patterns.  [skip] counts the characters of the current match
    that are still to be dropped. *)
Fixpoint replaceFrom (icase : bool) (r : regex) (repl : jsstring)
    (bef aft : jsstring) (skip : nat) : jsstring :=
  match skip with
  | S n =>
      match aft with
      | [] => []
      | x :: a => replaceFrom icase r repl (x :: bef) a n
      end
  | O =>
      match matchAt icase r (Cursor bef aft) with
      | Some e =>
          repl ++
          match length aft - length (after e), aft with
          | _, [] => []
          | O, x :: a => x :: replaceFrom icase r repl (x :: bef) a 0
          | S n, x :: a => replaceFrom icase r repl (x :: bef) a n
          end
      | None =>
          match aft with
          | [] => []
          | x :: a => x :: replaceFrom icase r repl (x :: bef) a 0
          end
      end
  end.

Definition replaceAll (icase : bool) (r : regex) (repl : jsstring)
    (s : jsstring) : jsstring :=
  replaceFrom icase r repl [] s 0.

End RegExp.

(** ** The output normalizer *)

(** [/[\x00-\x09\x0B-\x0C\x0E-\x1F]|\r?\n$/g] *)
Definition controlOrTrailingNewline : RegExp.regex :=
  RegExp.Alt
    (RegExp.Class [(0x00, 0x09); (0x0B, 0x0C); (0x0E, 0x1F)]%N)
    (RegExp.Seq (RegExp.Opt (RegExp.Chr 0x0D))
       (RegExp.Seq (RegExp.Chr 0x0A) RegExp.Eol)).

Definition bufferToString (buffer : Buffer.t) : jsstring :=
  RegExp.replaceAll false controlOrTrailingNewline [] (Buffer.toString buffer).

(** ** The host: platform, environment, diagnostics, messages *)

(** [isWindows] ('../constants') and [process.env]. *)
Record Platform := {
  isWindows : bool;
  processEnv : gmap string jsstring
}.

(** [options.stdio], reduced to whether the three streams are pipes (the
    default) or not; [subprocess.stdin], [.stdout] and [.stderr] are [null]
    when they are not. *)
Inductive Stdio := Pipe | Inherit | Ignore.

(** [cp.SpawnOptions & { stdin?: string }] (and [cp.ExecOptions] for the
    [exec] functions, which read [maxBuffer]). *)
Record SpawnOptions := {
  env : option (gmap string jsstring);
  stdin : option jsstring;
  shell : bool;
  stdio : Stdio;
  maxBuffer : option nat
}.

(** [{}] *)
Definition noOptions : SpawnOptions :=
  {| env := None; stdin := None; shell := false; stdio := Pipe; maxBuffer := None |}.

Definition withShell (o : SpawnOptions) : SpawnOptions :=
  {| env := env o; stdin := stdin o; shell := true; stdio := stdio o;
     maxBuffer := maxBuffer o |}.

Definition withEnv (e : gmap string jsstring) (o : SpawnOptions) : SpawnOptions :=
  {| env := Some e; stdin := stdin o; shell := shell o; stdio := stdio o;
     maxBuffer := maxBuffer o |}.

(** Modelled from the spec: [localize] ('../localize') is not under src/.  The
    message is the default text with the arguments put in the place of
    [{0}], [{1}], ...: the error message names the command and the exit code,
    and the captured stderr is appended to it. *)
Fixpoint format (template : jsstring) (args : list jsstring) : jsstring :=
  match template with
  | [] => []
  | c :: tl =>
      match tl with
      | d :: e :: rest =>
          if ((c =? 0x7B) && (0x30 <=? d) && (d <=? 0x39) && (e =? 0x7D))%N
          then JS.ofOption (args !! N.to_nat (d - 0x30)) ++ format rest args
          else c :: format tl args
      | _ => c :: format tl args
      end
  end.

Definition localize (key : string) (message : string) (args : list jsstring) : jsstring :=
  format (JS.lit message) args.

(** ** The PATH fix-up *)

Definition usrLocalBin : jsstring := JS.lit "/usr/local/bin".

(** [/(?<=^|:)\/usr\/local\/bin(?=$|:)/i] *)
Definition usrLocalBinPattern : RegExp.regex :=
  RegExp.Seq
    (RegExp.Lookbehind (RegExp.Alt RegExp.Bol (RegExp.Chr 0x3A)))
    (RegExp.Seq (RegExp.word usrLocalBin)
       (RegExp.Lookahead (RegExp.Alt RegExp.Eol (RegExp.Chr 0x3A)))).

(** [options?.env?.PATH || process.env.PATH!], as the text that
    [RegExp.prototype.test] receives. *)
Definition effectivePath (pf : Platform) (options : SpawnOptions) : jsstring :=
  let own := env options ≫= (fun e => e !! "PATH") in
  if JS.truthyStr own then JS.ofOption own
  else JS.ofOption (processEnv pf !! "PATH").

Definition pathWarning : jsstring :=
  localize "vscode-docker.utils.spawn.fixedPath"
    "WARNING: Adding '/usr/local/bin' to the PATH because it is missing." [].

(** [fixPathForMacIfNeeded(options)]: the options object afterwards and the
    lines appended to [ext.outputChannel].  An [env] object supplied by the
    caller is updated in place. *)
Definition fixPathForMacIfNeeded (pf : Platform) (options : SpawnOptions)
    : SpawnOptions * list jsstring :=
  if isWindows pf then (options, [])
  else if RegExp.test true usrLocalBinPattern (effectivePath pf options)
  then (options, [])
  else
    let e := match env options with
             | Some e => e
             | None => processEnv pf
             end in
    (withEnv (<["PATH" := JS.ofOption (e !! "PATH") ++ JS.lit ":/usr/local/bin"]> e)
       options,
     [pathWarning]).

(** ** Child processes, cancellation tokens and promises *)

(** The handle returned by [cp.spawn]: what was launched, what was written to
    its standard input, and how often [kill()] was called. *)
Record ChildProcess := {
  spawnCommand : jsstring;
  spawnOptions : SpawnOptions;
  stdinWritten : list jsstring;
  stdinEnded : bool;
  killCalls : nat
}.

Definition spawn (command : jsstring) (options : SpawnOptions) : ChildProcess :=
  {| spawnCommand := command; spawnOptions := options; stdinWritten := [];
     stdinEnded := false; killCalls := 0 |}.

(** [subprocess.stdin], [.stdout], [.stderr] are not [null]. *)
Definition piped (p : ChildProcess) : bool :=
  match stdio (spawnOptions p) with
  | Pipe => true
  | _ => false
  end.

(** [subprocess.stdin.write(text); subprocess.stdin.end()] *)
Definition writeAndEndStdin (text : jsstring) (p : ChildProcess) : ChildProcess :=
  {| spawnCommand := spawnCommand p; spawnOptions := spawnOptions p;
     stdinWritten := stdinWritten p ++ [text]; stdinEnded := true;
     killCalls := killCalls p |}.

(** [subprocess.kill()] *)
Definition kill (p : ChildProcess) : ChildProcess :=
  {| spawnCommand := spawnCommand p; spawnOptions := spawnOptions p;
     stdinWritten := stdinWritten p; stdinEnded := stdinEnded p;
     killCalls := S (killCalls p) |}.

(** [options.stdin] is written to the process and the stream is closed. *)
Definition feedStdin (options : SpawnOptions) (p : ChildProcess) : ChildProcess :=
  if JS.truthyStr (stdin options) then
    if piped p then writeAndEndStdin (JS.ofOption (stdin options)) p else p
  else p.

(** The error object of a failed launch, as the platform makes it. *)
Record SystemError := { errCode : string; errSyscall : string }.

(** [ExecError = Error & { code, signal, stdErrHandled }] *)
Record ExecError := {
  message : jsstring;
  code : option Z;
  signal : option jsstring;
  stdErrHandled : bool
}.

(** What a promise is rejected with. *)
Inductive Rejection :=
| UserCancelledError
| ExecFailure (error : ExecError)
| Thrown (err : SystemError).

Inductive Promise :=
| Pending
| Resolved
| Rejected (reason : Rejection).

(** [resolve()] and [reject(reason)] act on a pending promise only. *)
Definition settle (outcome p : Promise) : Promise :=
  match p with
  | Pending => outcome
  | _ => p
  end.

(** A [vscode.CancellationToken], as it is at some moment. *)
Record CancellationToken := { isCancellationRequested : bool }.

(** [token && token.isCancellationRequested] *)
Definition cancellationRequested (token : option CancellationToken) : bool :=
  match token with
  | Some t => isCancellationRequested t
  | None => false
  end.

(** The [Disposable] returned by [token.onCancellationRequested]: the
    number of calls of its [dispose()].  The listener is registered as long
    as this is zero. *)
Record Disposable := { disposeCalls : nat }.

Definition dispose (d : Disposable) : Disposable :=
  {| disposeCalls := S (disposeCalls d) |}.

Definition notNull {A : Type} (v : option A) : bool :=
  match v with
  | Some _ => true
  | None => false
  end.

Definition numText (v : option Z) : jsstring :=
  match v with
  | Some n => JS.ofZ n
  | None => JS.lit "null"
  end.

Inductive Stream := Stdout | Stderr.

(** What the event loop delivers to one operation: a chunk of output, the
    ['error'] and ['close'] events of the process, and the notification of
    the token's listeners. *)
Inductive Event :=
| Data (stream : Stream) (chunk : Buffer.t)
| Error (err : SystemError)
| Close (code : option Z) (signal : option jsstring)
| CancellationRequested.

Definition isTerminal (ev : Event) : bool :=
  match ev with
  | Error _ | Close _ _ => true
  | _ => false
  end.

Definition isCancellation (ev : Event) : bool :=
  match ev with
  | CancellationRequested => true
  | _ => false
  end.

Definition exitedMessage (command : jsstring) (code : option Z) : jsstring :=
  localize "vscode-docker.utils.spawn.exited" "Process '{0}' exited with code {1}"
    [ if 50 <? length command then JS.substring0 50 command ++ JS.lit "..."
      else command;
      numText code ].

Definition exitedErrorMessage (text : jsstring) : jsstring :=
  localize "vscode-docker.utils.spawn.exitedError"
    (String "010"%char "Error: {0}") [text].

(** ** spawnAsync

    The body of the promise executor runs once ([start]); afterwards the event
    loop calls the registered handlers, one event at a time ([handle]).  A
    handler that throws makes the run [None]. *)
Module SpawnAsync.
Section WithCaller.

(** The state that the caller's callbacks act on. *)
Context {S : Type}.

(** [Progress = (content: string, process: cp.ChildProcess) => void] *)
Definition Progress : Type := jsstring -> ChildProcess -> S -> ChildProcess * S.

(** The local variables of the executor and the objects that it shares with
    the caller (the two buffers, the token) and with the host. *)
Record State := {
  promise : Promise;
  cancellationListener : option Disposable;
  stdoutBytesWritten : nat;
  stderrBytesWritten : nat;
  subprocess : ChildProcess;
  stdoutListening : bool;
  stderrListening : bool;
  stdoutBuffer : option Buffer.t;
  stderrBuffer : option Buffer.t;
  token : option CancellationToken;
  caller : S;
  outputChannel : list jsstring
}.

Definition withPromise (p : Promise) (st : State) : State :=
  {| promise := p; cancellationListener := cancellationListener st;
     stdoutBytesWritten := stdoutBytesWritten st;
     stderrBytesWritten := stderrBytesWritten st; subprocess := subprocess st;
     stdoutListening := stdoutListening st; stderrListening := stderrListening st;
     stdoutBuffer := stdoutBuffer st; stderrBuffer := stderrBuffer st;
     token := token st; caller := caller st; outputChannel := outputChannel st |}.

Definition withListener (l : option Disposable) (st : State) : State :=
  {| promise := promise st; cancellationListener := l;
     stdoutBytesWritten := stdoutBytesWritten st;
     stderrBytesWritten := stderrBytesWritten st; subprocess := subprocess st;
     stdoutListening := stdoutListening st; stderrListening := stderrListening st;
     stdoutBuffer := stdoutBuffer st; stderrBuffer := stderrBuffer st;
     token := token st; caller := caller st; outputChannel := outputChannel st |}.

Definition withProcess (p : ChildProcess) (c : S) (st : State) : State :=
  {| promise := promise st; cancellationListener := cancellationListener st;
     stdoutBytesWritten := stdoutBytesWritten st;
     stderrBytesWritten := stderrBytesWritten st; subprocess := p;
     stdoutListening := stdoutListening st; stderrListening := stderrListening st;
     stdoutBuffer := stdoutBuffer st; stderrBuffer := stderrBuffer st;
     token := token st; caller := c; outputChannel := outputChannel st |}.

Definition withStdout (b : Buffer.t) (written : nat) (st : State) : State :=
  {| promise := promise st; cancellationListener := cancellationListener st;
     stdoutBytesWritten := written;
     stderrBytesWritten := stderrBytesWritten st; subprocess := subprocess st;
     stdoutListening := stdoutListening st; stderrListening := stderrListening st;
     stdoutBuffer := Some b; stderrBuffer := stderrBuffer st;
     token := token st; caller := caller st; outputChannel := outputChannel st |}.

Definition withStderr (b : Buffer.t) (written : nat) (st : State) : State :=
  {| promise := promise st; cancellationListener := cancellationListener st;
     stdoutBytesWritten := stdoutBytesWritten st;
     stderrBytesWritten := written; subprocess := subprocess st;
     stdoutListening := stdoutListening st; stderrListening := stderrListening st;
     stdoutBuffer := stdoutBuffer st; stderrBuffer := Some b;
     token := token st; caller := caller st; outputChannel := outputChannel st |}.

Definition withToken (t : option CancellationToken) (st : State) : State :=
  {| promise := promise st; cancellationListener := cancellationListener st;
     stdoutBytesWritten := stdoutBytesWritten st;
     stderrBytesWritten := stderrBytesWritten st; subprocess := subprocess st;
     stdoutListening := stdoutListening st; stderrListening := stderrListening st;
     stdoutBuffer := stdoutBuffer st; stderrBuffer := stderrBuffer st;
     token := t; caller := caller st; outputChannel := outputChannel st |}.

Definition resolve (st : State) : State :=
  withPromise (settle Resolved (promise st)) st.

Definition reject (reason : Rejection) (st : State) : State :=
  withPromise (settle (Rejected reason) (promise st)) st.

(** [if (cancellationListener) { cancellationListener.dispose(); }] *)
Definition disposeListener (st : State) : State :=
  withListener (dispose <$> cancellationListener st) st.

Definition progress (f : option Progress) (data : jsstring) (st : State) : State :=
  match f with
  | Some f =>
      let '(p, c) := f data (subprocess st) (caller st) in
      withProcess p c st
  | None => st
  end.

Section Handlers.

Variable command : jsstring.
Variables onStdout onStderr : option Progress.

(** [subprocess.on('error', ...)] *)
Definition onError (err : SystemError) (st : State) : State :=
  reject (Thrown err) (disposeListener st).

(** [subprocess.on('close', ...)] *)
Definition onClose (code : option Z) (signal : option jsstring) (st : State) : State :=
  let st := disposeListener st in
  if cancellationRequested (token st) then
    reject UserCancelledError st
  else if JS.truthyNum code then
    let errorMessage := exitedMessage command code in
    let errorMessage :=
      match stderrBuffer st with
      | Some b => errorMessage ++ exitedErrorMessage (bufferToString b)
      | None => errorMessage
      end in
    reject (ExecFailure {| message := errorMessage; code := code;
                           signal := signal;
                           stdErrHandled := notNull onStderr |}) st
  else resolve st.

(** [subprocess.stdout.on('data', ...)] and [subprocess.stderr.on('data', ...)] *)
Definition onData (stream : Stream) (chunk : Buffer.t) (st : State) : option State :=
  match stream with
  | Stdout =>
      if stdoutListening st then
        let data := Buffer.toString chunk in
        let st := progress onStdout data st in
        match stdoutBuffer st with
        | Some b =>
            '(b', n) ← Buffer.write b data (stdoutBytesWritten st);
            Some (withStdout b' (stdoutBytesWritten st + n) st)
        | None => Some st
        end
      else Some st
  | Stderr =>
      if stderrListening st then
        let data := Buffer.toString chunk in
        let st := progress onStderr data st in
        match stderrBuffer st with
        | Some b =>
            '(b', n) ← Buffer.write b data (stderrBytesWritten st);
            Some (withStderr b' (stderrBytesWritten st + n) st)
        | None => Some st
        end
      else Some st
  end.

(** The token is cancelled and tells its listeners:
    [token.onCancellationRequested(() => { subprocess.kill(); })]. *)
Definition onCancellationRequested (st : State) : State :=
  match token st with
  | None => st
  | Some _ =>
      let st := withToken (Some {| isCancellationRequested := true |}) st in
      match cancellationListener st with
      | Some d =>
          if disposeCalls d =? 0
          then withProcess (kill (subprocess st)) (caller st) st
          else st
      | None => st
      end
  end.

Definition handle (ev : Event) (st : State) : option State :=
  match ev with
  | Data stream chunk => onData stream chunk st
  | Error err => Some (onError err st)
  | Close code signal => Some (onClose code signal st)
  | CancellationRequested => Some (onCancellationRequested st)
  end.

Fixpoint run (trace : list Event) (st : State) : option State :=
  match trace with
  | [] => Some st
  | ev :: rest => st' ← handle ev st; run rest st'
  end.

(** The state in which the awaiting caller resumes: the one reached by the
    first event that settles the promise. *)
Fixpoint await (trace : list Event) (st : State) : option State :=
  match promise st, trace with
  | Pending, ev :: rest => st' ← handle ev st; await rest st'
  | _, _ => Some st
  end.

End Handlers.

(** The executor: [new Promise((resolve, reject) => { ... })]. *)
Definition start (pf : Platform) (command : jsstring) (options : option SpawnOptions)
    (onStdout : option Progress) (stdoutBuffer : option Buffer.t)
    (onStderr : option Progress) (stderrBuffer : option Buffer.t)
    (token : option CancellationToken) (caller : S) : State :=
  let options := withShell (default noOptions options) in
  let '(options, warnings) := fixPathForMacIfNeeded pf options in
  let subprocess := feedStdin options (spawn command options) in
  {| promise := Pending;
     cancellationListener :=
       match token with
       | Some _ => Some {| disposeCalls := 0 |}
       | None => None
       end;
     stdoutBytesWritten := 0;
     stderrBytesWritten := 0;
     subprocess := subprocess;
     stdoutListening := (notNull onStdout || notNull stdoutBuffer) && piped subprocess;
     stderrListening := (notNull onStderr || notNull stderrBuffer) && piped subprocess;
     stdoutBuffer := stdoutBuffer;
     stderrBuffer := stderrBuffer;
     token := token;
     caller := caller;
     outputChannel := warnings |}.

(** [spawnAsync(command, options, onStdout, stdoutBuffer, onStderr,
    stderrBuffer, token)] followed by the events of [trace]. *)
Definition spawnAsync (pf : Platform) (command : jsstring) (options : option SpawnOptions)
    (onStdout : option Progress) (stdoutBuffer : option Buffer.t)
    (onStderr : option Progress) (stderrBuffer : option Buffer.t)
    (token : option CancellationToken) (caller : S) (trace : list Event)
    : option State :=
  run command onStdout onStderr trace
    (start pf command options onStdout stdoutBuffer onStderr stderrBuffer token caller).

End WithCaller.
End SpawnAsync.

(** ** spawnStreamAsync *)
Module SpawnStreamAsync.
Section WithCaller.

Context {S : Type}.

(** [(chunk: Buffer | string) => void]; the streams have no encoding set, so
    the chunks are buffers. *)
Definition OnChunk : Type := Buffer.t -> S -> S.

Record State := {
  promise : Promise;
  cancellationListener : option Disposable;
  errorChunks : list Buffer.t;
  process : ChildProcess;
  stdoutListening : bool;
  stderrListening : bool;
  token : option CancellationToken;
  caller : S
}.

Definition withPromise (p : Promise) (st : State) : State :=
  {| promise := p; cancellationListener := cancellationListener st;
     errorChunks := errorChunks st; process := process st;
     stdoutListening := stdoutListening st; stderrListening := stderrListening st;
     token := token st; caller := caller st |}.

Definition withListener (l : option Disposable) (st : State) : State :=
  {| promise := promise st; cancellationListener := l;
     errorChunks := errorChunks st; process := process st;
     stdoutListening := stdoutListening st; stderrListening := stderrListening st;
     token := token st; caller := caller st |}.

Definition withErrorChunks (chunks : list Buffer.t) (st : State) : State :=
  {| promise := promise st; cancellationListener := cancellationListener st;
     errorChunks := chunks; process := process st;
     stdoutListening := stdoutListening st; stderrListening := stderrListening st;
     token := token st; caller := caller st |}.

Definition withProcess (p : ChildProcess) (st : State) : State :=
  {| promise := promise st; cancellationListener := cancellationListener st;
     errorChunks := errorChunks st; process := p;
     stdoutListening := stdoutListening st; stderrListening := stderrListening st;
     token := token st; caller := caller st |}.

Definition withToken (t : option CancellationToken) (st : State) : State :=
  {| promise := promise st; cancellationListener := cancellationListener st;
     errorChunks := errorChunks st; process := process st;
     stdoutListening := stdoutListening st; stderrListening := stderrListening st;
     token := t; caller := caller st |}.

Definition withCaller (c : S) (st : State) : State :=
  {| promise := promise st; cancellationListener := cancellationListener st;
     errorChunks := errorChunks st; process := process st;
     stdoutListening := stdoutListening st; stderrListening := stderrListening st;
     token := token st; caller := c |}.

Definition resolve (st : State) : State :=
  withPromise (settle Resolved (promise st)) st.

Definition reject (reason : Rejection) (st : State) : State :=
  withPromise (settle (Rejected reason) (promise st)) st.

Definition disposeListener (st : State) : State :=
  withListener (dispose <$> cancellationListener st) st.

Definition deliver (f : option OnChunk) (chunk : Buffer.t) (st : State) : State :=
  match f with
  | Some f => withCaller (f chunk (caller st)) st
  | None => st
  end.

Section Handlers.

Variable command : jsstring.
Variables onStdout onStderr : option OnChunk.

(** [process.on('error', ...)] *)
Definition onError (err : SystemError) (st : State) : State :=
  reject (Thrown err) (disposeListener st).

(** [process.on('close', ...)] *)
Definition onClose (code : option Z) (signal : option jsstring) (st : State) : State :=
  let st := disposeListener st in
  if cancellationRequested (token st) then
    reject UserCancelledError st
  else if JS.truthyNum code then
    let errorMessage := exitedMessage command code in
    let errorMessage :=
      errorMessage ++
      exitedErrorMessage (bufferToString (Buffer.concat (errorChunks st))) in
    reject (ExecFailure {| message := errorMessage; code := code;
                           signal := signal; stdErrHandled := false |}) st
  else resolve st.

(** [process.stdout.on('data', ...)] and [process.stderr.on('data', ...)] *)
Definition onData (stream : Stream) (chunk : Buffer.t) (st : State) : State :=
  match stream with
  | Stdout =>
      if stdoutListening st then deliver onStdout chunk st else st
  | Stderr =>
      if stderrListening st then
        let st := withErrorChunks (errorChunks st ++ [chunk]) st in
        deliver onStderr chunk st
      else st
  end.

Definition onCancellationRequested (st : State) : State :=
  match token st with
  | None => st
  | Some _ =>
      let st := withToken (Some {| isCancellationRequested := true |}) st in
      match cancellationListener st with
      | Some d =>
          if disposeCalls d =? 0 then withProcess (kill (process st)) st else st
      | None => st
      end
  end.

Definition handle (ev : Event) (st : State) : State :=
  match ev with
  | Data stream chunk => onData stream chunk st
  | Error err => onError err st
  | Close code signal => onClose code signal st
  | CancellationRequested => onCancellationRequested st
  end.

Definition run (trace : list Event) (st : State) : State :=
  foldl (fun st ev => handle ev st) st trace.

(** The state in which the awaiting caller resumes: the one reached by the
    first event that settles the promise. *)
Fixpoint await (trace : list Event) (st : State) : State :=
  match promise st, trace with
  | Pending, ev :: rest => await rest (handle ev st)
  | _, _ => st
  end.

End Handlers.

Definition start (command : jsstring) (options : option SpawnOptions)
    (onStdout onStderr : option OnChunk) (token : option CancellationToken)
    (caller : S) : State :=
  let options := withShell (default noOptions options) in
  let process := feedStdin options (spawn command options) in
  {| promise := Pending;
     cancellationListener :=
       match token with
       | Some _ => Some {| disposeCalls := 0 |}
       | None => None
       end;
     errorChunks := [];
     process := process;
     stdoutListening := notNull onStdout && piped process;
     stderrListening := notNull onStderr && piped process;
     token := token;
     caller := caller |}.

(** [spawnStreamAsync(command, options, onStdout, onStderr, token)] followed
    by the events of [trace]. *)
Definition spawnStreamAsync (command : jsstring) (options : option SpawnOptions)
    (onStdout onStderr : option OnChunk) (token : option CancellationToken)
    (caller : S) (trace : list Event) : State :=
  run command onStdout onStderr trace
    (start command options onStdout onStderr token caller).

End WithCaller.
End SpawnStreamAsync.

(** ** The exec functions *)

(** What [await] of the operation gives once [trace] has been delivered. *)
Inductive Awaited (A : Type) :=
| Waiting
| Returned (value : A)
| Raised (reason : Rejection).
Arguments Waiting {A}.
Arguments Returned {A} value.
Arguments Raised {A} reason.

Record Output := { stdout : jsstring; stderr : jsstring }.

Definition DEFAULT_BUFFER_SIZE : nat := 10 * 1024.

(** [options && options.maxBuffer || DEFAULT_BUFFER_SIZE] *)
Definition bufferSize (options : option SpawnOptions) : nat :=
  match options ≫= maxBuffer with
  | Some (S n) => S n
  | _ => DEFAULT_BUFFER_SIZE
  end.

Definition execAsync {S : Type} (pf : Platform) (command : jsstring)
    (options : option SpawnOptions) (progress : option (@SpawnAsync.Progress S))
    (caller : S) (trace : list Event) : option (Awaited Output) :=
  let stdoutBuffer := Buffer.alloc (bufferSize options) in
  let stderrBuffer := Buffer.alloc (bufferSize options) in
  st ← SpawnAsync.await command progress progress trace
         (SpawnAsync.start pf command options progress (Some stdoutBuffer)
            progress (Some stderrBuffer) None caller);
  Some match SpawnAsync.promise st with
       | Pending => Waiting
       | Rejected reason => Raised reason
       | Resolved =>
           Returned
             {| stdout := bufferToString (default [] (SpawnAsync.stdoutBuffer st));
                stderr := bufferToString (default [] (SpawnAsync.stderrBuffer st)) |}
       end.

(** The two chunk lists of [execStreamAsync]. *)
Record Chunks := { stdoutChunks : list Buffer.t; stderrChunks : list Buffer.t }.

Definition pushStdout (chunk : Buffer.t) (c : Chunks) : Chunks :=
  {| stdoutChunks := stdoutChunks c ++ [chunk]; stderrChunks := stderrChunks c |}.

Definition pushStderr (chunk : Buffer.t) (c : Chunks) : Chunks :=
  {| stdoutChunks := stdoutChunks c; stderrChunks := stderrChunks c ++ [chunk] |}.

Definition execStreamAsync (command : jsstring) (options : option SpawnOptions)
    (token : option CancellationToken) (trace : list Event) : Awaited Output :=
  let st :=
    SpawnStreamAsync.await command (Some pushStdout) (Some pushStderr) trace
      (SpawnStreamAsync.start command options (Some pushStdout)
         (Some pushStderr) token {| stdoutChunks := []; stderrChunks := [] |}) in
  match SpawnStreamAsync.promise st with
  | Pending => Waiting
  | Rejected reason => Raised reason
  | Resolved =>
      let chunks := SpawnStreamAsync.caller st in
      Returned
        {| stdout := bufferToString (Buffer.concat (stdoutChunks chunks));
           stderr := bufferToString (Buffer.concat (stderrChunks chunks)) |}
  end.

(** ** Reference descriptions of the text functions *)

(** The characters that the normalizer removes wherever they stand:
    0x00-0x09, 0x0B-0x0C and 0x0E-0x1F. *)
Definition isStripped (c : N) : bool :=
  ((c <=? 0x09) || ((0x0B <=? c) && (c <=? 0x0C)) || ((0x0E <=? c) && (c <=? 0x1F)))%N.

(** A line terminator: a newline, or a carriage return and a newline. *)
Definition isTerminator (s : jsstring) : bool :=
  match s with
  | [c] => (c =? 0x0A)%N
  | [c; d] => ((c =? 0x0D) && (d =? 0x0A))%N
  | _ => false
  end.

(** The text without the one line terminator at its very end, when it ends
    with one. *)
Fixpoint chomp (s : jsstring) : jsstring :=
  match s with
  | [] => []
  | c :: rest => if isTerminator s then [] else c :: chomp rest
  end.

(** The ASCII control characters: 0x00-0x1F and 0x7F. *)
Definition isAsciiControl (c : N) : bool := ((c <=? 0x1F) || (c =? 0x7F))%N.

(** The normalizer as the specification words it: every ASCII control
    character goes, except horizontal tab and newline, and so does one line
    terminator at the end. *)
Definition normalizeKeepingTab (s : jsstring) : jsstring :=
  List.filter (fun c => negb (isAsciiControl c && negb (c =? 0x09)%N && negb (c =? 0x0A)%N))
    (chomp s).

(** [s.split(sep)] for a separator of one character. *)
Fixpoint splitOn (sep : N) (s : jsstring) : list jsstring :=
  match s with
  | [] => [[]]
  | c :: rest =>
      if (c =? sep)%N then [] :: splitOn sep rest
      else
        match splitOn sep rest with
        | seg :: segs => (c :: seg) :: segs
        | [] => [[c]]
        end
  end.

(** Two texts are the same up to the case of their ASCII letters. *)
Fixpoint equalIgnoringCase (a b : jsstring) : bool :=
  match a, b with
  | [], [] => true
  | x :: a', y :: b' =>
      (RegExp.canonicalize x =? RegExp.canonicalize y)%N && equalIgnoringCase a' b'
  | _, _ => false
  end.

(** The PATH holds [/usr/local/bin], in any case, as a whole colon-delimited
    segment. *)
Definition hasUsrLocalBin (path : jsstring) : bool :=
  existsb (fun seg => equalIgnoringCase usrLocalBin seg) (splitOn 0x3A path).

(** ** Vocabulary of the statements about runs *)

(** No ['error'] and no ['close'] event: the promise is still pending. *)
Definition quiet (trace : list Event) : bool :=
  forallb (fun ev => negb (isTerminal ev)) trace.

(** Cancellation of the supplied token has been requested by the end of
    [trace]: it was requested before the call, or during the trace. *)
Definition requestedBy (token : option CancellationToken) (trace : list Event) : bool :=
  match token with
  | Some t => isCancellationRequested t || existsb isCancellation trace
  | None => false
  end.

(** The number of ['error'] and ['close'] events. *)
Definition terminalEvents (trace : list Event) : nat :=
  length (List.filter isTerminal trace).

(** The chunks that one stream emits, in the order of arrival. *)
Fixpoint chunksOf (stream : Stream) (trace : list Event) : list Buffer.t :=
  match trace with
  | [] => []
  | Data Stdout chunk :: rest =>
      match stream with
      | Stdout => chunk :: chunksOf stream rest
      | Stderr => chunksOf stream rest
      end
  | Data Stderr chunk :: rest =>
      match stream with
      | Stdout => chunksOf stream rest
      | Stderr => chunk :: chunksOf stream rest
      end
  | _ :: rest => chunksOf stream rest
  end.

(** The outcome without the text of the message: pending, resolved, or
    rejected with which error, exit code, signal and flag. *)
Definition outcomeClass (p : Promise) : Promise :=
  match p with
  | Rejected (ExecFailure e) =>
      Rejected (ExecFailure {| message := []; code := code e; signal := signal e;
                               stdErrHandled := stdErrHandled e |})
  | _ => p
  end.

(** What the ['close'] handler settles the promise with. *)
Definition closeOutcome (errorMessage : jsstring) (stdErrHandled : bool)
    (token : option CancellationToken) (code : option Z) (signal : option jsstring)
    : Promise :=
  if cancellationRequested token then Rejected UserCancelledError
  else if JS.truthyNum code then
    Rejected (ExecFailure {| message := errorMessage; code := code; signal := signal;
                             stdErrHandled := stdErrHandled |})
  else Resolved.

Definition cancelled (t : CancellationToken) : CancellationToken :=
  {| isCancellationRequested := true |}.

(** The write cursors of [spawnAsync] are within their buffers. *)
Definition inBounds {S : Type} (st : @SpawnAsync.State S) : Prop :=
  match SpawnAsync.stdoutBuffer st with
  | Some b => SpawnAsync.stdoutBytesWritten st <= length b
  | None => True
  end /\
  match SpawnAsync.stderrBuffer st with
  | Some b => SpawnAsync.stderrBytesWritten st <= length b
  | None => True
  end.

(** The message that [spawnAsync] builds when the process closes in state
    [st] with a non-zero exit code. *)
Definition spawnFailureMessage {S : Type} (command : jsstring)
    (st : @SpawnAsync.State S) (code : option Z) : jsstring :=
  match SpawnAsync.stderrBuffer st with
  | Some b => exitedMessage command code ++ exitedErrorMessage (bufferToString b)
  | None => exitedMessage command code
  end.

(** The same for [spawnStreamAsync]. *)
Definition streamFailureMessage {S : Type} (command : jsstring)
    (st : @SpawnStreamAsync.State S) (code : option Z) : jsstring :=
  exitedMessage command code ++
  exitedErrorMessage (bufferToString (Buffer.concat (SpawnStreamAsync.errorChunks st))).

(** A bounded sink after the chunks have been written to it one after the
    other: the buffer and the write cursor. *)
Fixpoint capture (b : Buffer.t) (cursor : nat) (chunks : list Buffer.t)
    : Buffer.t * nat :=
  match chunks with
  | [] => (b, cursor)
  | chunk :: rest =>
      match Buffer.write b (Buffer.toString chunk) cursor with
      | Some (b', n) => capture b' (cursor + n) rest
      | None => (b, cursor)
      end
  end.

(** The streams of the launched process are pipes. *)
Definition pipes (options : option SpawnOptions) : bool :=
  match stdio (default noOptions options) with
  | Pipe => true
  | _ => false
  end.

(** The completion arbiter: how the promise goes through a trace, as far as
    the class of the outcome goes.  Only the ['error'] and ['close'] events and
    the requests of cancellation count; the chunks of output do not. *)
Fixpoint arbiter (stdErrHandled : bool) (token : option CancellationToken)
    (p : Promise) (trace : list Event) : Promise :=
  match trace with
  | [] => p
  | Error err :: rest =>
      arbiter stdErrHandled token (settle (Rejected (Thrown err)) p) rest
  | Close code signal :: rest =>
      arbiter stdErrHandled token
        (settle (closeOutcome [] stdErrHandled token code signal) p) rest
  | CancellationRequested :: rest =>
      arbiter stdErrHandled (cancelled <$> token) p rest
  | Data _ _ :: rest => arbiter stdErrHandled token p rest
  end.

(** A sink of [spawnAsync] after the chunks of its stream: the buffer, when
    there is one, and the write cursor. *)
Definition sinkAfter (buffer : option Buffer.t) (cursor : nat) (listening : bool)
    (chunks : list Buffer.t) : option Buffer.t * nat :=
  match buffer with
  | Some b =>
      let '(b', n) := capture b cursor (if listening then chunks else []) in
      (Some b', n)
  | None => (None, cursor)
  end.

(** Vocabulary of the proof about the PATH pattern: the text after [w] when
    [s] starts with [w] up to case; a position at the start or end of the
    text or next to a colon; the text up to the first colon. *)
Fixpoint stripPrefix (w s : jsstring) : option jsstring :=
  match w with
  | [] => Some s
  | x :: w' =>
      match s with
      | c :: s' => if RegExp.sameChar true x c then stripPrefix w' s' else None
      | [] => None
      end
  end.

Definition atBoundary (s : jsstring) : bool :=
  match s with
  | [] => true
  | c :: _ => (c =? 0x3A)%N
  end.

Fixpoint firstSegment (s : jsstring) : jsstring :=
  match s with
  | [] => []
  | c :: rest => if (c =? 0x3A)%N then [] else c :: firstSegment rest
  end.

(** ** Sample inputs *)

Definition macHost : Platform :=
  {| isWindows := false;
     processEnv := {[ "PATH" := JS.lit "/usr/bin"; "HOME" := JS.lit "/root" ]} |}.

(** Options with an environment of the caller's own. *)
Definition ownEnvOptions : SpawnOptions :=
  withEnv {[ "PATH" := JS.lit "/bin" ]} noOptions.

Definition freshToken : CancellationToken := {| isCancellationRequested := false |}.

Definition enoent : SystemError := {| errCode := "ENOENT"; errSyscall := "spawn /bin/sh" |}.

Definition boom : Buffer.t := Buffer.ofString "boom".

Definition noChunks : Chunks := {| stdoutChunks := []; stderrChunks := [] |}.

(** Options that ask for sinks of four bytes. *)
Definition fourBytes : SpawnOptions :=
  {| env := None; stdin := None; shell := false; stdio := Pipe; maxBuffer := Some 4 |}.

(** A progress callback that keeps what it is given. *)
Definition keep : @SpawnAsync.Progress (list jsstring) :=
  fun content process seen => (process, seen ++ [content]).

(** ** Vocabulary of the further properties *)

(** A byte below 0x80. *)
Definition isAscii (b : Byte.byte) : bool := (Byte.to_N b <? 0x80)%N.

(** The bytes that a sink with [room] bytes left takes from the chunks: of
    each chunk, decoded and encoded again, the whole characters that fit. *)
Fixpoint captured (room : nat) (chunks : list Buffer.t) : Buffer.t :=
  match chunks with
  | [] => []
  | chunk :: rest =>
      let bytes := Buffer.fitting room (Buffer.encodeChars (Buffer.toString chunk)) in
      bytes ++ captured (room - length bytes) rest
  end.

(** A fresh sink of [size] bytes after the chunks: what was captured, and
    zero bytes up to the size. *)
Definition sinkContents (size : nat) (chunks : list Buffer.t) : Buffer.t :=
  captured size chunks ++ Buffer.alloc (size - length (captured size chunks)).


(** There is a token and its listener has not been disposed. *)
Definition registered (token : option CancellationToken)
    (listener : option Disposable) : bool :=
  match token, listener with
  | Some _, Some d => disposeCalls d =? 0
  | _, _ => false
  end.

(** The trace without the chunks of one stream. *)
Definition withoutStream (stream : Stream) (trace : list Event) : list Event :=
  List.filter
    (fun ev =>
       match ev, stream with
       | Data Stdout _, Stdout => false
       | Data Stderr _, Stderr => false
       | _, _ => true
       end) trace.

(** A process launched with [options], fed with [options.stdin], and killed
    [kills] times. *)
Definition launched (command : jsstring) (options : SpawnOptions) (kills : nat)
    : ChildProcess :=
  let fed := JS.truthyStr (stdin options)
             && match stdio options with Pipe => true | _ => false end in
  {| spawnCommand := command;
     spawnOptions := options;
     stdinWritten := if fed then [JS.ofOption (stdin options)] else [];
     stdinEnded := fed;
     killCalls := kills |}.

(** The line [hi] with its newline. *)
Definition hiLine : Buffer.t := [Byte.x68; Byte.x69; Byte.x0a].

(** * Proofs *)

(** ** The normalizer *)

Lemma inRanges_stripped c :
  RegExp.inRanges [(0x00, 0x09); (0x0B, 0x0C); (0x0E, 0x1F)]%N c = isStripped c.
Proof.
  unfold RegExp.inRanges, isStripped. cbn [existsb fst snd].
  replace (0x00 <=? c)%N with true by (symmetry; apply N.leb_le; lia).
  rewrite orb_false_r, orb_assoc. reflexivity.
Qed.

(** Where the pattern matches: at a stripped character, or at a line
    terminator that ends the text. *)
Lemma matchAt_normalizer bef aft :
  RegExp.matchAt false controlOrTrailingNewline (RegExp.Cursor bef aft) =
  match aft with
  | [] => None
  | c :: rest =>
      if isStripped c then Some (RegExp.Cursor (c :: bef) rest)
      else if isTerminator aft then Some (RegExp.Cursor (rev aft ++ bef) [])
      else None
  end.
Proof.
  unfold RegExp.matchAt, controlOrTrailingNewline.
  cbn [RegExp.rmatch RegExp.step RegExp.after RegExp.before].
  destruct aft as [|c rest]; [reflexivity|].
  rewrite inRanges_stripped.
  destruct (isStripped c) eqn:Hs; [reflexivity|].
  unfold RegExp.sameChar. cbn [isTerminator].
  destruct rest as [|d rest].
  - destruct (N.eqb_spec 13 c) as [<-|Hc]; [reflexivity|].
    rewrite (N.eqb_sym 10 c). destruct (c =? 10)%N; reflexivity.
  - cbn [RegExp.rmatch RegExp.step RegExp.after RegExp.before].
    rewrite (N.eqb_sym 13 c), (N.eqb_sym 10 d), (N.eqb_sym 10 c).
    destruct (N.eqb_spec c 13) as [->|Hc].
    + destruct rest; cbn; destruct (d =? 10)%N; reflexivity.
    + cbn. destruct (c =? 10)%N; destruct rest; reflexivity.
Qed.

Lemma stripped_not_terminator c rest :
  isStripped c = true -> isTerminator (c :: rest) = false.
Proof.
  unfold isStripped, isTerminator. intros H.
  destruct rest as [|d [|? ?]]; try reflexivity.
  - apply N.eqb_neq. intros ->. discriminate.
  - destruct (N.eqb_spec c 13) as [->|]; [discriminate|reflexivity].
Qed.

Lemma replace_chomp bef aft :
  RegExp.replaceFrom false controlOrTrailingNewline [] bef aft 0
  = List.filter (fun c => negb (isStripped c)) (chomp aft).
Proof.
  revert bef. induction aft as [|c rest IH]; intros bef.
  - reflexivity.
  - cbn [RegExp.replaceFrom chomp]. rewrite matchAt_normalizer.
    destruct (isStripped c) eqn:Hs.
    + rewrite (stripped_not_terminator _ _ Hs). cbn [RegExp.after List.filter]. rewrite Hs.
      replace (length (c :: rest) - length rest) with 1 by (simpl; lia).
      cbn. apply IH.
    + destruct (isTerminator (c :: rest)) eqn:Ht.
      * cbn [RegExp.after length app List.filter].
        destruct rest as [|d [|? ?]]; try discriminate; reflexivity.
      * cbn [List.filter]. rewrite Hs. cbn. f_equal. apply IH.
Qed.

Lemma chomp_crlf s : chomp (s ++ [0x0D; 0x0A]%N) = s.
Proof.
  induction s as [|c s IH]; [reflexivity|].
  cbn [app chomp]. rewrite IH.
  replace (isTerminator (c :: s ++ [13; 10]%N)) with false; [reflexivity|].
  destruct s as [|? [|? ?]]; reflexivity.
Qed.

Lemma chomp_lf s :
  (forall t, s <> t ++ [0x0D]%N) -> chomp (s ++ [0x0A]%N) = s.
Proof.
  induction s as [|c s IH]; intros H; [reflexivity|].
  cbn [app chomp]. rewrite IH.
  - replace (isTerminator (c :: s ++ [10]%N)) with false; [reflexivity|].
    destruct s as [|? [|? ?]]; try reflexivity. cbn.
    destruct (N.eqb_spec c 13) as [->|]; [|reflexivity].
    exfalso. apply (H []). reflexivity.
  - intros t ->. apply (H (c :: t)). reflexivity.
Qed.

Lemma chomp_other s :
  (forall t, s <> t ++ [0x0A]%N) -> chomp s = s.
Proof.
  induction s as [|c s IH]; intros H; [reflexivity|].
  cbn [chomp]. rewrite IH.
  - replace (isTerminator (c :: s)) with false; [reflexivity|].
    destruct s as [|d [|? ?]]; try reflexivity; cbn.
    + destruct (N.eqb_spec c 10) as [->|]; [|reflexivity].
      exfalso. apply (H []). reflexivity.
    + destruct (N.eqb_spec d 10) as [->|]; [|rewrite andb_false_r; reflexivity].
      exfalso. apply (H [c]). reflexivity.
  - intros t ->. apply (H (c :: t)). reflexivity.
Qed.

Lemma isStripped_ranges c :
  isStripped c = true <->
  (c <= 0x09 \/ (0x0B <= c /\ c <= 0x0C) \/ (0x0E <= c /\ c <= 0x1F))%N.
Proof.
  unfold isStripped.
  rewrite !orb_true_iff, !andb_true_iff, !N.leb_le. tauto.
Qed.

(** C3, as the code has it: [bufferToString] removes every character in
    0x00-0x09, 0x0B-0x0C and 0x0E-0x1F, that is every control character below
    0x20 except newline (0x0A) and carriage return (0x0D), horizontal tab
    (0x09) included, and it removes one line terminator (a newline, with the
    carriage return before it when there is one) when the decoded text ends
    with it; newlines elsewhere, carriage returns and DEL (0x7F) stay. *)
Theorem bufferToString_normalizes (buffer : Buffer.t) :
  bufferToString buffer
    = List.filter (fun c => negb (isStripped c)) (chomp (Buffer.toString buffer))
  /\ (forall c, isStripped c = true <->
        (c <= 0x09 \/ (0x0B <= c /\ c <= 0x0C) \/ (0x0E <= c /\ c <= 0x1F))%N)
  /\ (forall s, chomp (s ++ [0x0D; 0x0A]%N) = s)
  /\ (forall s, (forall t, s <> t ++ [0x0D]%N) -> chomp (s ++ [0x0A]%N) = s)
  /\ (forall s, (forall t, s <> t ++ [0x0A]%N) -> chomp s = s).
Proof.
  split; [apply replace_chomp|].
  split; [apply isStripped_ranges|].
  split; [apply chomp_crlf|].
  split; [apply chomp_lf|apply chomp_other].
Qed.

(** C3 as stated fails: a horizontal tab is removed (and a carriage return
    inside the text is kept), so the result is not the text that keeps tab
    and newline and drops the other ASCII control characters. *)
Lemma bufferToString_strips_tab :
  bufferToString [Byte.x61; Byte.x09; Byte.x62; Byte.x0d; Byte.x63]
    = [0x61; 0x62; 0x0D; 0x63]%N
  /\ normalizeKeepingTab (Buffer.toString [Byte.x61; Byte.x09; Byte.x62; Byte.x0d; Byte.x63])
    = [0x61; 0x09; 0x62; 0x63]%N.
Proof. split; reflexivity. Qed.

(** ** The PATH fix-up *)

Lemma rmatch_word w bef aft k :
  RegExp.rmatch true (RegExp.word w) RegExp.Forward (RegExp.Cursor bef aft) k =
  match stripPrefix w aft with
  | Some post => k (RegExp.Cursor (rev (take (length w) aft) ++ bef) post)
  | None => None
  end.
Proof.
  revert bef aft. induction w as [|x w IH]; intros bef aft.
  - reflexivity.
  - cbn [RegExp.word RegExp.rmatch RegExp.step RegExp.after RegExp.before stripPrefix].
    destruct aft as [|c aft]; [reflexivity|].
    destruct (RegExp.sameChar true x c); [|reflexivity].
    rewrite IH. cbn [length take rev]. rewrite <- app_assoc. reflexivity.
Qed.

Lemma colon_same c : RegExp.sameChar true 0x3A c = (c =? 0x3A)%N.
Proof.
  unfold RegExp.sameChar. change (RegExp.canonicalize 0x3A) with 0x3A%N.
  unfold RegExp.canonicalize.
  destruct (N.leb_spec 0x61 c); destruct (N.leb_spec c 0x7A); cbn [andb];
    destruct (N.eqb_spec c 0x3A); try (apply N.eqb_eq; lia); apply N.eqb_neq; lia.
Qed.

Lemma matchAt_usrLocalBin bef aft :
  RegExp.matchAt true usrLocalBinPattern (RegExp.Cursor bef aft) =
  if atBoundary bef then
    match stripPrefix usrLocalBin aft with
    | Some post =>
        if atBoundary post
        then Some (RegExp.Cursor (rev (take (length usrLocalBin) aft) ++ bef) post)
        else None
    | None => None
    end
  else None.
Proof.
  unfold RegExp.matchAt, usrLocalBinPattern.
  cbn [RegExp.rmatch RegExp.step RegExp.before RegExp.after].
  destruct bef as [|x bef]; cbn [atBoundary].
  - rewrite rmatch_word. destruct (stripPrefix usrLocalBin aft) as [post|]; [|reflexivity].
    cbn [RegExp.rmatch RegExp.step RegExp.before RegExp.after].
    destruct post as [|c post]; [reflexivity|]. cbn [atBoundary].
    rewrite colon_same. destruct (c =? 58)%N; reflexivity.
  - rewrite colon_same. destruct (x =? 58)%N; [|reflexivity].
    rewrite rmatch_word. destruct (stripPrefix usrLocalBin aft) as [post|]; [|reflexivity].
    cbn [RegExp.rmatch RegExp.step RegExp.before RegExp.after].
    destruct post as [|c post]; [reflexivity|]. cbn [atBoundary].
    rewrite colon_same. destruct (c =? 58)%N; reflexivity.
Qed.

Lemma splitOn_first s : exists segs, splitOn 0x3A s = firstSegment s :: segs.
Proof.
  induction s as [|c s [segs IH]]; cbn [splitOn firstSegment].
  - eauto.
  - destruct (c =? 58)%N; [eauto|]. rewrite IH. eauto.
Qed.

(** The first segment is the word exactly when the text starts with the word
    and a boundary follows, for a word without a colon. *)
Lemma firstSegment_word w s :
  forallb (fun x => negb (RegExp.canonicalize x =? 0x3A)%N) w = true ->
  equalIgnoringCase w (firstSegment s) =
  match stripPrefix w s with
  | Some post => atBoundary post
  | None => false
  end.
Proof.
  revert s. induction w as [|x w IH]; intros s Hw.
  - cbn [stripPrefix]. destruct s as [|c s]; [reflexivity|].
    cbn [firstSegment atBoundary]. destruct (c =? 58)%N; reflexivity.
  - cbn [forallb] in Hw. apply andb_true_iff in Hw as [Hx Hw].
    apply negb_true_iff in Hx.
    destruct s as [|c s]; [reflexivity|].
    cbn [firstSegment stripPrefix]. unfold RegExp.sameChar.
    destruct (N.eqb_spec c 58) as [->|Hc].
    + cbn [equalIgnoringCase]. change (RegExp.canonicalize 58) with 58%N.
      rewrite Hx. reflexivity.
    + cbn [equalIgnoringCase].
      destruct (RegExp.canonicalize x =? RegExp.canonicalize c)%N; [|reflexivity].
      cbn [andb]. apply IH, Hw.
Qed.

Lemma usrLocalBin_no_colon :
  forallb (fun x => negb (RegExp.canonicalize x =? 0x3A)%N) usrLocalBin = true.
Proof. reflexivity. Qed.

Lemma matchAt_usrLocalBin_found bef aft :
  notNull (RegExp.matchAt true usrLocalBinPattern (RegExp.Cursor bef aft)) =
  atBoundary bef && equalIgnoringCase usrLocalBin (firstSegment aft).
Proof.
  rewrite matchAt_usrLocalBin, (firstSegment_word _ _ usrLocalBin_no_colon).
  destruct (atBoundary bef); [|reflexivity].
  destruct (stripPrefix usrLocalBin aft) as [post|]; [|reflexivity].
  destruct (atBoundary post); reflexivity.
Qed.

(** The search finds the pattern exactly when one of the segments that are
    still to come is the word. *)
Lemma testFrom_segments bef aft :
  RegExp.testFrom true usrLocalBinPattern bef aft =
  existsb (fun seg => equalIgnoringCase usrLocalBin seg)
    (if atBoundary bef then splitOn 0x3A aft else tail (splitOn 0x3A aft)).
Proof.
  revert bef. induction aft as [|c aft IH]; intros bef.
  - cbn [RegExp.testFrom]. pose proof (matchAt_usrLocalBin_found bef []) as Hm.
    destruct (RegExp.matchAt true usrLocalBinPattern (RegExp.Cursor bef []));
      cbn [notNull] in Hm.
    + rewrite andb_comm in Hm. discriminate.
    + destruct (atBoundary bef); reflexivity.
  - cbn [RegExp.testFrom]. pose proof (matchAt_usrLocalBin_found bef (c :: aft)) as Hm.
    destruct (splitOn_first (c :: aft)) as [segs Hs].
    destruct (RegExp.matchAt true usrLocalBinPattern (RegExp.Cursor bef (c :: aft)));
      cbn [notNull] in Hm.
    + symmetry in Hm. apply andb_true_iff in Hm as [-> He].
      rewrite Hs. cbn [existsb]. rewrite He. reflexivity.
    + rewrite IH. rewrite Hs. cbn [atBoundary tail].
      cbn [splitOn] in Hs.
      destruct (c =? 58)%N eqn:Hc.
      * injection Hs as Hf <-.
        destruct (atBoundary bef); cbn [existsb tail]; [|reflexivity].
        cbn [andb] in Hm. rewrite <- Hm. reflexivity.
      * destruct (splitOn_first aft) as [segs' Hs']. rewrite Hs' in Hs |- *.
        injection Hs as Hf <-. cbn [tail].
        destruct (atBoundary bef); [|reflexivity].
        cbn [existsb]. cbn [andb] in Hm. rewrite <- Hm. reflexivity.
Qed.

Lemma test_usrLocalBin path :
  RegExp.test true usrLocalBinPattern path = hasUsrLocalBin path.
Proof. apply (testFrom_segments [] path). Qed.

(** C6, as the code has it: on Windows, and when the effective PATH
    ([options.env.PATH] when it is set and not empty, the PATH of the current
    environment otherwise) holds [/usr/local/bin], in any case, as a whole
    colon-delimited segment, the options are left as they are and nothing is
    logged.  Otherwise the launch environment is the caller's [options.env]
    when there is one, and a clone of the current environment only when there
    is none; its PATH becomes its former PATH followed by [:/usr/local/bin],
    and one warning is logged. *)
Theorem fixPathForMacIfNeeded_spec (pf : Platform) (options : SpawnOptions) :
  fixPathForMacIfNeeded pf options =
    if isWindows pf || hasUsrLocalBin (effectivePath pf options) then (options, [])
    else
      let own := default (processEnv pf) (env options) in
      (withEnv (<["PATH" := JS.ofOption (own !! "PATH") ++ JS.lit ":/usr/local/bin"]> own)
         options,
       [pathWarning]).
Proof.
  unfold fixPathForMacIfNeeded. rewrite test_usrLocalBin.
  destruct (isWindows pf); [reflexivity|]. cbn [orb].
  destruct (hasUsrLocalBin (effectivePath pf options)); [reflexivity|].
  destruct (env options); reflexivity.
Qed.

(** C6 as stated fails: with an environment of the caller's own whose PATH
    lacks the directory, the launch environment is that environment with the
    directory appended, not a clone of the current one (whose HOME it does
    not have). *)
Lemma fixPath_keeps_supplied_env :
  isWindows macHost = false /\
  hasUsrLocalBin (effectivePath macHost ownEnvOptions) = false /\
  env (fst (fixPathForMacIfNeeded macHost ownEnvOptions))
    = Some {[ "PATH" := JS.lit "/bin:/usr/local/bin" ]} /\
  processEnv macHost !! "HOME" = Some (JS.lit "/root") /\
  (env (fst (fixPathForMacIfNeeded macHost ownEnvOptions)) ≫= (fun e => e !! "HOME"))
    = None.
Proof. vm_compute. repeat split; reflexivity. Qed.

(** ** Buffers and promises *)

Lemma fitting_length room groups : length (Buffer.fitting room groups) <= room.
Proof.
  revert room. induction groups as [|g gs IH]; intros room; cbn [Buffer.fitting].
  - cbn. lia.
  - destruct (Nat.leb_spec (length g) room); cbn [length]; [|lia].
    rewrite length_app. specialize (IH (room - length g)). lia.
Qed.

(** A write at a cursor within the buffer does not throw, keeps the length
    of the buffer and writes no more than the room that is left. *)
Lemma write_in_bounds b data offset :
  offset <= length b ->
  exists b' n, Buffer.write b data offset = Some (b', n)
    /\ length b' = length b /\ offset + n <= length b.
Proof.
  intros H. unfold Buffer.write.
  destruct (Nat.ltb_spec (length b) offset); [lia|].
  pose proof (fitting_length (length b - offset) (Buffer.encodeChars data)) as Hf.
  eexists _, _. split; [reflexivity|].
  rewrite !length_app, length_take, length_drop. lia.
Qed.

Lemma settle_settled o p : p <> Pending -> settle o p = p.
Proof. destruct p; [congruence|reflexivity..]. Qed.

Lemma outcomeClass_settle o p :
  outcomeClass (settle o p) = settle (outcomeClass o) (outcomeClass p).
Proof. destruct p as [| |[]]; reflexivity. Qed.

Lemma outcomeClass_closeOutcome m f t code signal :
  outcomeClass (closeOutcome m f t code signal) = closeOutcome [] f t code signal.
Proof. unfold closeOutcome. repeat case_match; reflexivity. Qed.

Lemma closeOutcome_settled m f t code signal : closeOutcome m f t code signal <> Pending.
Proof. unfold closeOutcome. repeat case_match; discriminate. Qed.

(** ** Facts about spawnAsync *)
Module SpawnAsyncFacts.
Import SpawnAsync.
Section Facts.
Context {S : Type}.
Variable command : jsstring.
Variables onStdout onStderr : option (@Progress S).

Local Opaque exitedMessage exitedErrorMessage bufferToString Buffer.toString Buffer.write.

Lemma run_app a b st :
  run command onStdout onStderr (a ++ b) st
  = run command onStdout onStderr a st ≫= run command onStdout onStderr b.
Proof.
  revert st. induction a as [|ev a IH]; intros st; [reflexivity|].
  cbn [app run]. destruct (handle command onStdout onStderr ev st); cbn;
    [apply IH|reflexivity].
Qed.

(** A callback touches the process handle and the caller's state only. *)
Lemma progress_frame f data (st : @State S) :
  let st' := progress f data st in
  promise st' = promise st /\ cancellationListener st' = cancellationListener st
  /\ stdoutBytesWritten st' = stdoutBytesWritten st
  /\ stderrBytesWritten st' = stderrBytesWritten st
  /\ stdoutListening st' = stdoutListening st /\ stderrListening st' = stderrListening st
  /\ stdoutBuffer st' = stdoutBuffer st /\ stderrBuffer st' = stderrBuffer st
  /\ token st' = token st /\ outputChannel st' = outputChannel st.
Proof.
  unfold progress. destruct f as [f|]; [|cbn; tauto].
  destruct (f data (subprocess st) (caller st)). cbn. tauto.
Qed.

(** How one event changes the promise, the token and the listener. *)
Lemma handle_control ev st st' :
  handle command onStdout onStderr ev st = Some st' ->
  promise st' =
    match ev with
    | Error err => settle (Rejected (Thrown err)) (promise st)
    | Close code signal =>
        settle (closeOutcome (spawnFailureMessage command st code) (notNull onStderr)
                  (token st) code signal) (promise st)
    | _ => promise st
    end
  /\ token st' =
    match ev with
    | CancellationRequested => cancelled <$> token st
    | _ => token st
    end
  /\ cancellationListener st' =
    if isTerminal ev then dispose <$> cancellationListener st
    else cancellationListener st.
Proof.
  destruct ev as [[] chunk|err|code signal|]; cbn [handle isTerminal]; intros H.
  - unfold onData in H.
    destruct (progress_frame onStdout (Buffer.toString chunk) st)
      as (Hp & Hl & _ & _ & _ & _ & _ & _ & Ht & _).
    repeat case_match; try (destruct (Buffer.write _ _ _) as [[? ?]|] eqn:?);
      simplify_eq/=; auto.
  - unfold onData in H.
    destruct (progress_frame onStderr (Buffer.toString chunk) st)
      as (Hp & Hl & _ & _ & _ & _ & _ & _ & Ht & _).
    repeat case_match; try (destruct (Buffer.write _ _ _) as [[? ?]|] eqn:?);
      simplify_eq/=; auto.
  - simplify_eq. auto.
  - simplify_eq. unfold onClose, closeOutcome, spawnFailureMessage. cbn.
    repeat case_match; auto.
  - simplify_eq. unfold onCancellationRequested.
    repeat case_match; cbn; auto.
Qed.

(** The events other than data leave the sinks alone. *)
Lemma handle_sinks ev st st' :
  handle command onStdout onStderr ev st = Some st' ->
  stdoutListening st' = stdoutListening st /\ stderrListening st' = stderrListening st
  /\ match ev with
     | Data _ _ => True
     | _ => stdoutBuffer st' = stdoutBuffer st /\ stderrBuffer st' = stderrBuffer st
            /\ stdoutBytesWritten st' = stdoutBytesWritten st
            /\ stderrBytesWritten st' = stderrBytesWritten st
     end.
Proof.
  destruct ev as [[] chunk|err|code signal|]; cbn [handle]; intros H.
  - unfold onData in H.
    destruct (progress_frame onStdout (Buffer.toString chunk) st)
      as (_ & _ & _ & _ & Ha & Hb & _).
    repeat case_match; try (destruct (Buffer.write _ _ _) as [[? ?]|] eqn:?);
      simplify_eq/=; auto.
  - unfold onData in H.
    destruct (progress_frame onStderr (Buffer.toString chunk) st)
      as (_ & _ & _ & _ & Ha & Hb & _).
    repeat case_match; try (destruct (Buffer.write _ _ _) as [[? ?]|] eqn:?);
      simplify_eq/=; auto.
  - simplify_eq. cbn. auto 10.
  - simplify_eq. unfold onClose. repeat case_match; cbn; auto 10.
  - simplify_eq. unfold onCancellationRequested. repeat case_match; cbn; auto 10.
Qed.

(** A chunk of standard output is written at the cursor, and the cursor
    moves by the number of bytes written. *)
Lemma onData_stdout chunk st :
  inBounds st ->
  exists st', onData onStdout onStderr Stdout chunk st = Some st' /\ inBounds st'
    /\ stderrBuffer st' = stderrBuffer st
    /\ stderrBytesWritten st' = stderrBytesWritten st
    /\ match stdoutBuffer st with
       | Some b =>
           if stdoutListening st then
             exists b' n,
               Buffer.write b (Buffer.toString chunk) (stdoutBytesWritten st) = Some (b', n)
               /\ stdoutBuffer st' = Some b'
               /\ stdoutBytesWritten st' = stdoutBytesWritten st + n
               /\ length b' = length b
           else stdoutBuffer st' = Some b
                /\ stdoutBytesWritten st' = stdoutBytesWritten st
       | None => stdoutBuffer st' = None
                 /\ stdoutBytesWritten st' = stdoutBytesWritten st
       end.
Proof.
  intros [Ho He]. unfold onData.
  destruct (stdoutListening st).
  - destruct (progress_frame onStdout (Buffer.toString chunk) st)
      as (_ & _ & Hw & Hw' & _ & _ & Hb & Hb' & _).
    cbv zeta in *. rewrite Hb, Hw. destruct (stdoutBuffer st) as [b|] eqn:Eb.
    + destruct (write_in_bounds b (Buffer.toString chunk) _ Ho) as (b' & n & Hwr & Hl & Hn).
      rewrite Hwr. cbn. eexists. split; [reflexivity|].
      unfold inBounds. cbn. rewrite Hb', Hw'. repeat split; try assumption; try lia.
      exists b', n. repeat split; assumption.
    + eexists. split; [reflexivity|]. unfold inBounds.
      rewrite Hb, Hb', Hw'. repeat split; assumption.
  - eexists. split; [reflexivity|]. unfold inBounds.
    destruct (stdoutBuffer st); repeat split; try reflexivity; assumption.
Qed.

Lemma onData_stderr chunk st :
  inBounds st ->
  exists st', onData onStdout onStderr Stderr chunk st = Some st' /\ inBounds st'
    /\ stdoutBuffer st' = stdoutBuffer st
    /\ stdoutBytesWritten st' = stdoutBytesWritten st
    /\ match stderrBuffer st with
       | Some b =>
           if stderrListening st then
             exists b' n,
               Buffer.write b (Buffer.toString chunk) (stderrBytesWritten st) = Some (b', n)
               /\ stderrBuffer st' = Some b'
               /\ stderrBytesWritten st' = stderrBytesWritten st + n
               /\ length b' = length b
           else stderrBuffer st' = Some b
                /\ stderrBytesWritten st' = stderrBytesWritten st
       | None => stderrBuffer st' = None
                 /\ stderrBytesWritten st' = stderrBytesWritten st
       end.
Proof.
  intros [Ho He]. unfold onData.
  destruct (stderrListening st).
  - destruct (progress_frame onStderr (Buffer.toString chunk) st)
      as (_ & _ & Hw & Hw' & _ & _ & Hb & Hb' & _).
    cbv zeta in *. rewrite Hb', Hw'. destruct (stderrBuffer st) as [b|] eqn:Eb.
    + destruct (write_in_bounds b (Buffer.toString chunk) _ He) as (b' & n & Hwr & Hl & Hn).
      rewrite Hwr. cbn. eexists. split; [reflexivity|].
      unfold inBounds. cbn. rewrite Hb, Hw. repeat split; try assumption; try lia.
      exists b', n. repeat split; assumption.
    + eexists. split; [reflexivity|]. unfold inBounds.
      rewrite Hb, Hb', Hw. repeat split; assumption.
  - eexists. split; [reflexivity|]. unfold inBounds.
    destruct (stderrBuffer st); repeat split; try reflexivity; assumption.
Qed.

(** No handler throws while the cursors are within the buffers, and they
    stay there. *)
Lemma handle_inBounds ev st :
  inBounds st ->
  exists st', handle command onStdout onStderr ev st = Some st' /\ inBounds st'.
Proof.
  intros H. destruct ev as [[] chunk|err|code signal|].
  - destruct (onData_stdout chunk st H) as (st' & ? & ? & _). eauto.
  - destruct (onData_stderr chunk st H) as (st' & ? & ? & _). eauto.
  - eexists. split; [reflexivity|].
    destruct (handle_sinks (Error err) st _ eq_refl) as (_ & _ & Ha & Hb & Hc & Hd).
    unfold inBounds. rewrite Ha, Hb, Hc, Hd. exact H.
  - eexists. split; [reflexivity|].
    destruct (handle_sinks (Close code signal) st _ eq_refl) as (_ & _ & Ha & Hb & Hc & Hd).
    unfold inBounds. rewrite Ha, Hb, Hc, Hd. exact H.
  - eexists. split; [reflexivity|].
    destruct (handle_sinks CancellationRequested st _ eq_refl) as (_ & _ & Ha & Hb & Hc & Hd).
    unfold inBounds. rewrite Ha, Hb, Hc, Hd. exact H.
Qed.

Lemma run_inBounds trace st :
  inBounds st ->
  exists st', run command onStdout onStderr trace st = Some st' /\ inBounds st'.
Proof.
  revert st. induction trace as [|ev trace IH]; intros st H.
  - eexists. split; [reflexivity|assumption].
  - destruct (handle_inBounds ev st H) as (st1 & H1 & Hb).
    cbn [run]. rewrite H1. cbn. apply IH, Hb.
Qed.

(** The promise, the token and the listener after a run. *)
Lemma run_control trace st st' :
  run command onStdout onStderr trace st = Some st' ->
  (quiet trace = true -> promise st' = promise st)
  /\ (promise st <> Pending -> promise st' = promise st)
  /\ cancellationRequested (token st') = requestedBy (token st) trace
  /\ cancellationListener st' =
     (fun d => {| disposeCalls := terminalEvents trace + disposeCalls d |})
       <$> cancellationListener st.
Proof.
  revert st. induction trace as [|ev trace IH]; intros st H.
  - cbn in H. simplify_eq. repeat split; try reflexivity.
    + unfold requestedBy. destruct (token st') as [t|]; [|reflexivity].
      cbn. rewrite orb_false_r. reflexivity.
    + destruct (cancellationListener st') as [[n]|]; reflexivity.
  - cbn [run] in H. destruct (handle command onStdout onStderr ev st) as [st1|] eqn:H1;
      [|discriminate]. cbn in H.
    destruct (IH _ H) as (Hq & Hs & Ht & Hl).
    destruct (handle_control _ _ _ H1) as (Hp1 & Ht1 & Hl1).
    repeat split.
    + cbn [quiet forallb]. intros Hq'. apply andb_true_iff in Hq' as [Hev Hq'].
      rewrite (Hq Hq'), Hp1. destruct ev; try discriminate; reflexivity.
    + intros Hp.
      assert (E : promise st1 = promise st)
        by (rewrite Hp1; destruct ev; try reflexivity; apply settle_settled, Hp).
      rewrite Hs; [exact E | rewrite E; exact Hp].
    + rewrite Ht, Ht1. unfold requestedBy.
      destruct ev; try reflexivity.
      destruct (token st) as [t|]; [|reflexivity]. cbn.
      rewrite orb_true_r. reflexivity.
    + rewrite Hl, Hl1. unfold terminalEvents.
      destruct ev; cbn [isTerminal List.filter length];
        destruct (cancellationListener st) as [[n]|]; cbn; try reflexivity;
        do 2 f_equal; lia.
Qed.

(** The class of the outcome is the arbiter's. *)
Lemma run_arbiter trace st st' :
  run command onStdout onStderr trace st = Some st' ->
  outcomeClass (promise st')
  = arbiter (notNull onStderr) (token st) (outcomeClass (promise st)) trace.
Proof.
  revert st. induction trace as [|ev trace IH]; intros st H.
  - cbn in H. simplify_eq. reflexivity.
  - cbn [run] in H. destruct (handle command onStdout onStderr ev st) as [st1|] eqn:H1;
      [|discriminate]. cbn in H.
    rewrite (IH _ H).
    destruct (handle_control _ _ _ H1) as (Hp1 & Ht1 & _).
    rewrite Hp1, Ht1.
    destruct ev as [[] chunk|err|code signal|]; cbn [arbiter];
      rewrite ?outcomeClass_settle, ?outcomeClass_closeOutcome; reflexivity.
Qed.

(** The sinks after a run: every chunk was written at the cursor, which
    moved by the number of bytes written. *)
Lemma run_sinks trace st st' :
  inBounds st ->
  run command onStdout onStderr trace st = Some st' ->
  stdoutListening st' = stdoutListening st /\ stderrListening st' = stderrListening st
  /\ (stdoutBuffer st', stdoutBytesWritten st') =
     sinkAfter (stdoutBuffer st) (stdoutBytesWritten st) (stdoutListening st)
       (chunksOf Stdout trace)
  /\ (stderrBuffer st', stderrBytesWritten st') =
     sinkAfter (stderrBuffer st) (stderrBytesWritten st) (stderrListening st)
       (chunksOf Stderr trace).
Proof.
  revert st. induction trace as [|ev trace IH]; intros st Hb H.
  - cbn in H. simplify_eq. repeat split; unfold sinkAfter.
    + destruct (stdoutBuffer st'); [destruct (stdoutListening st')|]; reflexivity.
    + destruct (stderrBuffer st'); [destruct (stderrListening st')|]; reflexivity.
  - cbn [run] in H.
    destruct (handle_inBounds ev st Hb) as (st1 & H1 & Hb1).
    rewrite H1 in H. cbn in H.
    destruct (IH _ Hb1 H) as (Ha & Ha' & Hc & Hd).
    destruct (handle_sinks _ _ _ H1) as (Hl & Hl' & Hs).
    rewrite Ha, Ha', Hc, Hd, Hl, Hl'. split; [reflexivity|]. split; [reflexivity|].
    destruct ev as [[] chunk|err|code signal|]; cbn [chunksOf];
      try (destruct Hs as (-> & -> & -> & ->); split; reflexivity).
    + destruct (onData_stdout chunk st Hb) as (st2 & H2 & _ & Hx & Hy & Hz).
      cbn [handle] in H1. rewrite H1 in H2. simplify_eq. rewrite Hx, Hy.
      split; [|reflexivity]. unfold sinkAfter.
      destruct (stdoutBuffer st) as [b|]; [|destruct Hz as (-> & ->); reflexivity].
      destruct (stdoutListening st).
      * destruct Hz as (b' & n & Hw & -> & -> & _). cbn [capture]. rewrite Hw. reflexivity.
      * destruct Hz as (-> & ->). reflexivity.
    + destruct (onData_stderr chunk st Hb) as (st2 & H2 & _ & Hx & Hy & Hz).
      cbn [handle] in H1. rewrite H1 in H2. simplify_eq. rewrite Hx, Hy.
      split; [reflexivity|]. unfold sinkAfter.
      destruct (stderrBuffer st) as [b|]; [|destruct Hz as (-> & ->); reflexivity].
      destruct (stderrListening st).
      * destruct Hz as (b' & n & Hw & -> & -> & _). cbn [capture]. rewrite Hw. reflexivity.
      * destruct Hz as (-> & ->). reflexivity.
Qed.

End Facts.

Lemma capture_length b cursor chunks :
  cursor <= length b ->
  length (fst (capture b cursor chunks)) = length b
  /\ snd (capture b cursor chunks) <= length b.
Proof.
  revert b cursor. induction chunks as [|chunk rest IH]; intros b cursor H.
  - cbn. auto.
  - cbn [capture].
    destruct (write_in_bounds b (Buffer.toString chunk) cursor H) as (b' & n & -> & Hl & Hn).
    destruct (IH b' (cursor + n)) as [IH1 IH2]; [lia|]. rewrite <- Hl. auto.
Qed.

Lemma fixPath_stdio pf o : stdio (fst (fixPathForMacIfNeeded pf o)) = stdio o.
Proof. unfold fixPathForMacIfNeeded. repeat case_match; reflexivity. Qed.

Section Start.
Context {S : Type}.
Variables (pf : Platform) (command : jsstring) (options : option SpawnOptions).
Variables (onStdout : option (@Progress S)) (stdoutBuffer0 : option Buffer.t).
Variables (onStderr : option (@Progress S)) (stderrBuffer0 : option Buffer.t).
Variables (token0 : option CancellationToken) (caller0 : S).

Local Opaque exitedMessage exitedErrorMessage bufferToString Buffer.toString Buffer.write.

(** The state in which the executor leaves the operation. *)
Lemma start_state :
  let st := start pf command options onStdout stdoutBuffer0 onStderr stderrBuffer0
              token0 caller0 in
  promise st = Pending /\ token st = token0
  /\ cancellationListener st = (fun _ => {| disposeCalls := 0 |}) <$> token0
  /\ stdoutBuffer st = stdoutBuffer0 /\ stderrBuffer st = stderrBuffer0
  /\ stdoutBytesWritten st = 0 /\ stderrBytesWritten st = 0
  /\ stdoutListening st = (notNull onStdout || notNull stdoutBuffer0) && pipes options
  /\ stderrListening st = (notNull onStderr || notNull stderrBuffer0) && pipes options
  /\ inBounds st.
Proof.
  unfold start.
  pose proof (fixPath_stdio pf (withShell (default noOptions options))) as Hs.
  destruct (fixPathForMacIfNeeded pf (withShell (default noOptions options)))
    as [o warnings].
  cbn [fst] in Hs. cbn.
  assert (Hp : piped (feedStdin o (spawn command o)) = pipes options).
  { unfold feedStdin, piped, pipes. repeat case_match; cbn in *; congruence. }
  rewrite Hp. split_and!; try done.
  split; cbn; [destruct stdoutBuffer0|destruct stderrBuffer0]; auto using Nat.le_0_l.
Qed.

(** What an ['error'] or ['close'] event does to the operation, after the
    events of [pre] and before those of [post]. *)
Lemma spawnAsync_terminal pre ev post :
  isTerminal ev = true ->
  exists mid st,
    spawnAsync pf command options onStdout stdoutBuffer0 onStderr stderrBuffer0
      token0 caller0 pre = Some mid
    /\ spawnAsync pf command options onStdout stdoutBuffer0 onStderr stderrBuffer0
         token0 caller0 (pre ++ ev :: post) = Some st
    /\ promise st =
       match ev with
       | Error err => settle (Rejected (Thrown err)) (promise mid)
       | Close code signal =>
           settle (closeOutcome (spawnFailureMessage command mid code)
                     (notNull onStderr) (token mid) code signal) (promise mid)
       | _ => promise mid
       end
    /\ cancellationRequested (token mid) = requestedBy token0 pre
    /\ (quiet pre = true -> promise mid = Pending)
    /\ (stderrBuffer mid, stderrBytesWritten mid) =
       sinkAfter stderrBuffer0 0 ((notNull onStderr || notNull stderrBuffer0)
                                   && pipes options) (chunksOf Stderr pre).
Proof.
  intros Hev. unfold spawnAsync.
  destruct start_state as (Hp & Ht & _ & _ & He & _ & Hw & _ & Hl & Hb).
  cbv zeta in *.
  set (st0 := start pf command options onStdout stdoutBuffer0 onStderr stderrBuffer0
                token0 caller0) in *.
  destruct (run_inBounds command onStdout onStderr pre st0 Hb) as (mid & Hmid & Hbm).
  destruct (handle_inBounds command onStdout onStderr ev mid Hbm) as (st1 & H1 & Hb1).
  destruct (run_inBounds command onStdout onStderr post st1 Hb1) as (st & Hst & _).
  exists mid, st. split; [exact Hmid|].
  split; [rewrite run_app, Hmid; cbn; rewrite H1; cbn; exact Hst|].
  destruct (run_control _ _ _ _ _ _ Hmid) as (Hq & _ & Htok & _).
  destruct (run_sinks _ _ _ _ _ _ Hb Hmid) as (_ & _ & _ & Hsink).
  destruct (handle_control _ _ _ _ _ _ H1) as (Hp1 & _).
  destruct (run_control _ _ _ _ _ _ Hst) as (_ & Hkeep & _).
  repeat split.
  - rewrite Hkeep; [exact Hp1|]. rewrite Hp1.
    destruct ev as [| err | code signal |]; try discriminate.
    + destruct (promise mid); discriminate.
    + pose proof (closeOutcome_settled (spawnFailureMessage command mid code)
                    (notNull onStderr) (token mid) code signal).
      destruct (promise mid); cbn; congruence.
  - rewrite Htok, Ht. reflexivity.
  - intros Hquiet. rewrite (Hq Hquiet). exact Hp.
  - rewrite Hsink, He, Hw, Hl. reflexivity.
Qed.

End Start.
End SpawnAsyncFacts.

(** ** Facts about spawnStreamAsync *)
Module SpawnStreamAsyncFacts.
Import SpawnStreamAsync.
Section Facts.
Context {S : Type}.
Variable command : jsstring.
Variables onStdout onStderr : option (@OnChunk S).

Local Opaque exitedMessage exitedErrorMessage bufferToString.

Lemma stream_run_app a b st :
  run command onStdout onStderr (a ++ b) st
  = run command onStdout onStderr b (run command onStdout onStderr a st).
Proof. apply foldl_app. Qed.

Lemma stream_run_cons ev trace st :
  run command onStdout onStderr (ev :: trace) st
  = run command onStdout onStderr trace (handle command onStdout onStderr ev st).
Proof. reflexivity. Qed.

(** How one event changes the state. *)
Lemma stream_handle_control ev st :
  let st' := handle command onStdout onStderr ev st in
  promise st' =
    match ev with
    | Error err => settle (Rejected (Thrown err)) (promise st)
    | Close code signal =>
        settle (closeOutcome (streamFailureMessage command st code) false
                  (token st) code signal) (promise st)
    | _ => promise st
    end
  /\ token st' =
    match ev with
    | CancellationRequested => cancelled <$> token st
    | _ => token st
    end
  /\ cancellationListener st' =
    (if isTerminal ev then dispose <$> cancellationListener st
     else cancellationListener st)
  /\ stderrListening st' = stderrListening st
  /\ errorChunks st' =
    match ev with
    | Data Stderr chunk =>
        if stderrListening st then errorChunks st ++ [chunk] else errorChunks st
    | _ => errorChunks st
    end.
Proof.
  destruct ev as [[] chunk|err|code signal|]; cbn [handle isTerminal].
  - unfold onData, deliver. repeat case_match; cbn; auto 10.
  - unfold onData, deliver. repeat case_match; cbn; auto 10.
  - cbn. auto 10.
  - unfold onClose, closeOutcome, streamFailureMessage. cbn.
    repeat case_match; cbn; auto 10.
  - unfold onCancellationRequested. repeat case_match; cbn; auto 10.
Qed.

(** The state after a run. *)
Lemma stream_run_control trace st :
  let st' := run command onStdout onStderr trace st in
  (quiet trace = true -> promise st' = promise st)
  /\ (promise st <> Pending -> promise st' = promise st)
  /\ cancellationRequested (token st') = requestedBy (token st) trace
  /\ cancellationListener st' =
     ((fun d => {| disposeCalls := terminalEvents trace + disposeCalls d |})
        <$> cancellationListener st)
  /\ stderrListening st' = stderrListening st
  /\ errorChunks st' =
     errorChunks st ++ (if stderrListening st then chunksOf Stderr trace else []).
Proof.
  revert st. induction trace as [|ev trace IH]; intros st; cbv zeta.
  - cbn [run foldl]. repeat split; try reflexivity.
    + unfold requestedBy. destruct (token st) as [t|]; [|reflexivity].
      cbn. rewrite orb_false_r. reflexivity.
    + destruct (cancellationListener st) as [[n]|]; reflexivity.
    + cbn. destruct (stderrListening st); rewrite app_nil_r; reflexivity.
  - rewrite stream_run_cons.
    destruct (IH (handle command onStdout onStderr ev st)) as (Hq & Hs & Ht & Hl & Hsl & He).
    destruct (stream_handle_control ev st) as (Hp1 & Ht1 & Hl1 & Hsl1 & He1).
    repeat split.
    + cbn [quiet forallb]. intros Hq'. apply andb_true_iff in Hq' as [Hev Hq'].
      rewrite (Hq Hq'), Hp1. destruct ev; try discriminate; reflexivity.
    + intros Hp.
      assert (E : promise (handle command onStdout onStderr ev st) = promise st)
        by (rewrite Hp1; destruct ev; try reflexivity; apply settle_settled, Hp).
      rewrite Hs; [exact E | rewrite E; exact Hp].
    + rewrite Ht, Ht1. unfold requestedBy.
      destruct ev; try reflexivity.
      destruct (token st) as [t|]; [|reflexivity]. cbn.
      rewrite orb_true_r. reflexivity.
    + rewrite Hl, Hl1. unfold terminalEvents.
      destruct ev; cbn [isTerminal List.filter length];
        destruct (cancellationListener st) as [[n]|]; cbn; try reflexivity;
        do 2 f_equal; lia.
    + rewrite Hsl, Hsl1. reflexivity.
    + rewrite He, He1, Hsl1.
      destruct ev as [[] chunk|err|code signal|]; cbn [chunksOf]; try reflexivity.
      destruct (stderrListening st); [|reflexivity].
      rewrite <- app_assoc. reflexivity.
Qed.

End Facts.

Section Start.
Context {S : Type}.
Variables (command : jsstring) (options : option SpawnOptions).
Variables (onStdout onStderr : option (@OnChunk S)).
Variables (token0 : option CancellationToken) (caller0 : S).

Local Opaque exitedMessage exitedErrorMessage bufferToString.

Lemma stream_start_state :
  let st := start command options onStdout onStderr token0 caller0 in
  promise st = Pending /\ token st = token0
  /\ cancellationListener st = (fun _ => {| disposeCalls := 0 |}) <$> token0
  /\ errorChunks st = []
  /\ stderrListening st = notNull onStderr && pipes options.
Proof.
  unfold start. cbn.
  assert (Hp : piped (feedStdin (withShell (default noOptions options))
                        (spawn command (withShell (default noOptions options))))
               = pipes options).
  { unfold feedStdin, piped, pipes. repeat case_match; cbn in *; congruence. }
  rewrite Hp. split_and!; try done.
Qed.

(** What an ['error'] or ['close'] event does to the operation, after the
    events of [pre] and before those of [post]. *)
Lemma spawnStreamAsync_terminal pre ev post :
  isTerminal ev = true ->
  let mid := spawnStreamAsync command options onStdout onStderr token0 caller0 pre in
  let st := spawnStreamAsync command options onStdout onStderr token0 caller0
              (pre ++ ev :: post) in
  promise st =
    match ev with
    | Error err => settle (Rejected (Thrown err)) (promise mid)
    | Close code signal =>
        settle (closeOutcome (streamFailureMessage command mid code) false
                  (token mid) code signal) (promise mid)
    | _ => promise mid
    end
  /\ cancellationRequested (token mid) = requestedBy token0 pre
  /\ (quiet pre = true -> promise mid = Pending)
  /\ errorChunks mid =
     if notNull onStderr && pipes options then chunksOf Stderr pre else [].
Proof.
  intros Hev. unfold spawnStreamAsync. cbv zeta.
  destruct stream_start_state as (Hp & Ht & _ & He & Hl). cbv zeta in *.
  set (st0 := start command options onStdout onStderr token0 caller0) in *.
  rewrite stream_run_app, stream_run_cons.
  set (mid := run command onStdout onStderr pre st0).
  destruct (stream_run_control command onStdout onStderr pre st0) as (Hq & _ & Htok & _ & _ & Hch).
  destruct (stream_handle_control command onStdout onStderr ev mid) as (Hp1 & _).
  destruct (stream_run_control command onStdout onStderr post
              (handle command onStdout onStderr ev mid)) as (_ & Hkeep & _).
  fold mid in Hq, Htok, Hch. cbv zeta in *.
  repeat split.
  - rewrite Hkeep; [exact Hp1|]. rewrite Hp1.
    destruct ev as [| err | code signal |]; try discriminate.
    + destruct (promise mid); discriminate.
    + pose proof (closeOutcome_settled (streamFailureMessage command mid code)
                    false (token mid) code signal).
      destruct (promise mid); cbn; congruence.
  - rewrite Htok, Ht. reflexivity.
  - intros Hquiet. rewrite (Hq Hquiet). exact Hp.
  - rewrite Hch, He, Hl. reflexivity.
Qed.

End Start.
End SpawnStreamAsyncFacts.

(** The event that ends a quiet trace is the first of its kind. *)
Lemma terminalEvents_first pre ev :
  quiet pre = true -> isTerminal ev = true -> terminalEvents (pre ++ [ev]) = 1.
Proof.
  unfold terminalEvents. intros Hq Hev.
  induction pre as [|e pre IH]; cbn [app List.filter].
  - rewrite Hev. reflexivity.
  - cbn [quiet forallb] in Hq. apply andb_true_iff in Hq as [He Hq].
    apply negb_true_iff in He. rewrite He. apply IH, Hq.
Qed.

(** ** The texts of the messages *)

Lemma exitedMessage_text command n :
  exitedMessage command (Some n)
  = JS.lit "Process '"
    ++ (if 50 <? length command then take 50 command ++ JS.lit "..." else command)
    ++ JS.lit "' exited with code " ++ JS.ofZ n.
Proof.
  unfold exitedMessage, localize, numText, JS.substring0.
  set (shown := if 50 <? length command then _ else _).
  set (num := JS.ofZ n).
  change (format (JS.lit "Process '{0}' exited with code {1}") [shown; num])
    with (JS.lit "Process '" ++ shown ++ JS.lit "' exited with code " ++ num ++ []).
  rewrite app_nil_r. reflexivity.
Qed.

Lemma exitedErrorMessage_text text :
  exitedErrorMessage text = [0x0A]%N ++ JS.lit "Error: " ++ text.
Proof.
  unfold exitedErrorMessage, localize.
  change (format (JS.lit (String "010" "Error: {0}")) [text])
    with ([0x0A]%N ++ JS.lit "Error: " ++ text ++ []).
  rewrite app_nil_r. reflexivity.
Qed.

(** ** The operations as a whole *)
Section Operations.

Context {S T : Type}.
Variables (pf : Platform) (command : jsstring) (options : option SpawnOptions).
Variables (onStdout onStderr : option (@SpawnAsync.Progress S)).
Variables (stdoutBuffer stderrBuffer : option Buffer.t).
Variables (onStdoutChunk onStderrChunk : option (@SpawnStreamAsync.OnChunk T)).
Variables (token : option CancellationToken) (caller : S) (callerT : T).

Local Abbreviation buffered :=
  (SpawnAsync.spawnAsync pf command options onStdout stdoutBuffer onStderr
     stderrBuffer token caller).
Local Abbreviation streamed :=
  (SpawnStreamAsync.spawnStreamAsync command options onStdoutChunk onStderrChunk
     token callerT).

(** [spawnAsync] never throws: every trace leaves a state. *)
Lemma buffered_total trace : exists st, buffered trace = Some st /\ inBounds st.
Proof.
  destruct (SpawnAsyncFacts.start_state pf command options onStdout stdoutBuffer
              onStderr stderrBuffer token caller) as (_ & _ & _ & _ & _ & _ & _ & _ & _ & Hb).
  apply SpawnAsyncFacts.run_inBounds, Hb.
Qed.

(** C5, as the code has it: each ['error'] and each ['close'] event disposes
    the registered listener once, so that after a run [dispose()] has been
    called as many times as such events were delivered: once when the
    promise settles, whichever event settles it, and once more when the other
    event follows (two calls when a launch error is followed by the close of
    the process).  Without a token there is no listener. *)
Theorem listener_disposed_per_terminal_event (trace : list Event) :
  (exists st, buffered trace = Some st
     /\ SpawnAsync.cancellationListener st
        = (fun _ => {| disposeCalls := terminalEvents trace |}) <$> token)
  /\ SpawnStreamAsync.cancellationListener (streamed trace)
     = (fun _ => {| disposeCalls := terminalEvents trace |}) <$> token
  /\ (forall pre ev,
        quiet pre = true -> isTerminal ev = true -> terminalEvents (pre ++ [ev]) = 1).
Proof.
  split; [|split; [|apply terminalEvents_first]].
  - destruct (buffered_total trace) as (st & Hst & _). exists st. split; [exact Hst|].
    destruct (SpawnAsyncFacts.run_control _ _ _ _ _ _ Hst) as (_ & _ & _ & ->).
    destruct (SpawnAsyncFacts.start_state pf command options onStdout stdoutBuffer
                onStderr stderrBuffer token caller) as (_ & _ & -> & _).
    destruct token; cbn; [rewrite Nat.add_0_r|]; reflexivity.
  - unfold SpawnStreamAsync.spawnStreamAsync.
    destruct (SpawnStreamAsyncFacts.stream_run_control command onStdoutChunk onStderrChunk trace
                (SpawnStreamAsync.start command options onStdoutChunk onStderrChunk
                   token callerT)) as (_ & _ & _ & -> & _).
    destruct (SpawnStreamAsyncFacts.stream_start_state command options onStdoutChunk
                onStderrChunk token callerT) as (_ & _ & -> & _).
    destruct token; cbn; [rewrite Nat.add_0_r|]; reflexivity.
Qed.

(** C1: when cancellation of the supplied token has been requested by the
    time of a ['close'] event, the close handler of [spawnAsync] and of
    [spawnStreamAsync] rejects with [UserCancelledError], whatever exit code
    and signal the event carries; when the promise is still pending then (no
    ['error'] or ['close'] came before), that is what the operation is
    rejected with. *)
Theorem cancellation_overrides_exit_code
    (pre post : list Event) (code : option Z) (signal : option jsstring) :
  requestedBy token pre = true ->
  (exists mid st,
     buffered pre = Some mid
     /\ buffered (pre ++ Close code signal :: post) = Some st
     /\ SpawnAsync.promise st
        = settle (Rejected UserCancelledError) (SpawnAsync.promise mid)
     /\ (quiet pre = true -> SpawnAsync.promise st = Rejected UserCancelledError))
  /\ SpawnStreamAsync.promise (streamed (pre ++ Close code signal :: post))
     = settle (Rejected UserCancelledError) (SpawnStreamAsync.promise (streamed pre))
  /\ (quiet pre = true ->
      SpawnStreamAsync.promise (streamed (pre ++ Close code signal :: post))
      = Rejected UserCancelledError).
Proof.
  intros Hreq. split.
  - destruct (SpawnAsyncFacts.spawnAsync_terminal pf command options onStdout
                stdoutBuffer onStderr stderrBuffer token caller pre
                (Close code signal) post eq_refl)
      as (mid & st & Hmid & Hst & Hp & Htok & Hq & _).
    exists mid, st. unfold closeOutcome in Hp. rewrite Htok, Hreq in Hp.
    repeat split; try assumption.
    intros Hquiet. rewrite Hp, (Hq Hquiet). reflexivity.
  - destruct (SpawnStreamAsyncFacts.spawnStreamAsync_terminal command options
                onStdoutChunk onStderrChunk token callerT pre (Close code signal)
                post eq_refl) as (Hp & Htok & Hq & _).
    unfold closeOutcome in Hp. rewrite Htok, Hreq in Hp.
    split; [exact Hp|]. intros Hquiet. rewrite Hp, (Hq Hquiet). reflexivity.
Qed.

(** C9: when the process reports an ['error'] while the promise is pending,
    [spawnAsync] and [spawnStreamAsync] reject with that very error object:
    it is not wrapped, not classified anew, and nothing is launched again. *)
Theorem launch_error_propagates (pre post : list Event) (err : SystemError) :
  quiet pre = true ->
  (exists st,
     buffered (pre ++ Error err :: post) = Some st
     /\ SpawnAsync.promise st = Rejected (Thrown err))
  /\ SpawnStreamAsync.promise (streamed (pre ++ Error err :: post))
     = Rejected (Thrown err).
Proof.
  intros Hquiet. split.
  - destruct (SpawnAsyncFacts.spawnAsync_terminal pf command options onStdout
                stdoutBuffer onStderr stderrBuffer token caller pre
                (Error err) post eq_refl)
      as (mid & st & Hmid & Hst & Hp & _ & Hq & _).
    exists st. split; [exact Hst|]. rewrite Hp, (Hq Hquiet). reflexivity.
  - destruct (SpawnStreamAsyncFacts.spawnStreamAsync_terminal command options
                onStdoutChunk onStderrChunk token callerT pre (Error err)
                post eq_refl) as (Hp & _ & Hq & _).
    rewrite Hp, (Hq Hquiet). reflexivity.
Qed.

(** C10: a ['close'] event without a request of cancellation whose exit code
    is falsy, [0] or the [null] of a process killed by a signal, resolves
    [spawnAsync] and [spawnStreamAsync], whatever the signal. *)
Theorem falsy_exit_code_resolves
    (pre post : list Event) (code : option Z) (signal : option jsstring) :
  quiet pre = true ->
  requestedBy token pre = false ->
  JS.truthyNum code = false ->
  (exists st,
     buffered (pre ++ Close code signal :: post) = Some st
     /\ SpawnAsync.promise st = Resolved)
  /\ SpawnStreamAsync.promise (streamed (pre ++ Close code signal :: post)) = Resolved.
Proof.
  intros Hquiet Hreq Hcode. split.
  - destruct (SpawnAsyncFacts.spawnAsync_terminal pf command options onStdout
                stdoutBuffer onStderr stderrBuffer token caller pre
                (Close code signal) post eq_refl)
      as (mid & st & Hmid & Hst & Hp & Htok & Hq & _).
    exists st. split; [exact Hst|].
    unfold closeOutcome in Hp. rewrite Htok, Hreq, Hcode, (Hq Hquiet) in Hp. exact Hp.
  - destruct (SpawnStreamAsyncFacts.spawnStreamAsync_terminal command options
                onStdoutChunk onStderrChunk token callerT pre (Close code signal)
                post eq_refl) as (Hp & Htok & Hq & _).
    unfold closeOutcome in Hp. rewrite Htok, Hreq, Hcode, (Hq Hquiet) in Hp. exact Hp.
Qed.

(** C2: when the process closes with a non-zero exit code [n], no
    cancellation having been requested, [spawnAsync] rejects with an error
    that carries [n] and the reported signal.  Its message names the command,
    as it is when it has at most 50 characters and cut to its first 50
    characters followed by [...] otherwise, and the exit code; when a stderr
    buffer was supplied, the message goes on with the normalized text of that
    buffer, into which the chunks of stderr were written. *)
Theorem nonzero_exit_rejects_with_exec_error
    (pre post : list Event) (n : Z) (signal : option jsstring) :
  quiet pre = true ->
  requestedBy token pre = false ->
  n <> 0%Z ->
  exists st,
    buffered (pre ++ Close (Some n) signal :: post) = Some st
    /\ SpawnAsync.promise st =
       Rejected (ExecFailure {|
         message :=
           JS.lit "Process '"
           ++ (if 50 <? length command then take 50 command ++ JS.lit "..."
               else command)
           ++ JS.lit "' exited with code " ++ JS.ofZ n
           ++ match stderrBuffer with
              | Some b =>
                  [0x0A]%N ++ JS.lit "Error: "
                  ++ bufferToString
                       (fst (capture b 0
                               (if pipes options then chunksOf Stderr pre else [])))
              | None => []
              end;
         code := Some n;
         signal := signal;
         stdErrHandled := notNull onStderr |}).
Proof.
  intros Hquiet Hreq Hn.
  destruct (SpawnAsyncFacts.spawnAsync_terminal pf command options onStdout
              stdoutBuffer onStderr stderrBuffer token caller pre
              (Close (Some n) signal) post eq_refl)
    as (mid & st & Hmid & Hst & Hp & Htok & Hq & Hsink).
  exists st. split; [exact Hst|].
  unfold closeOutcome in Hp. rewrite Htok, Hreq, (Hq Hquiet) in Hp.
  assert (Ht : JS.truthyNum (Some n) = true)
    by (cbn; apply negb_true_iff, Z.eqb_neq, Hn).
  rewrite Ht in Hp. rewrite Hp. cbn [settle]. do 3 f_equal.
  unfold spawnFailureMessage, sinkAfter in *.
  destruct stderrBuffer as [b|].
  - rewrite orb_true_r in Hsink. cbn [andb] in Hsink.
    destruct (capture b 0 (if pipes options then chunksOf Stderr pre else []))
      as [b' k] eqn:Hc.
    injection Hsink as -> _. cbn [fst].
    rewrite exitedMessage_text, exitedErrorMessage_text, <- !app_assoc. reflexivity.
  - injection Hsink as -> _. rewrite exitedMessage_text, app_nil_r. reflexivity.
Qed.

(** C7, as the code has it: the error of a non-zero exit carries the flag
    [stdErrHandled]; [spawnAsync] sets it exactly when the caller supplied
    [onStderr], and [spawnStreamAsync] always sets it to [false], also when
    the caller supplied a stderr callback. *)
Theorem stdErrHandled_flag
    (pre post : list Event) (n : Z) (signal : option jsstring) :
  quiet pre = true ->
  requestedBy token pre = false ->
  n <> 0%Z ->
  (exists st e,
     buffered (pre ++ Close (Some n) signal :: post) = Some st
     /\ SpawnAsync.promise st = Rejected (ExecFailure e)
     /\ stdErrHandled e = notNull onStderr)
  /\ (exists e,
       SpawnStreamAsync.promise (streamed (pre ++ Close (Some n) signal :: post))
       = Rejected (ExecFailure e)
       /\ stdErrHandled e = false).
Proof.
  intros Hquiet Hreq Hn.
  assert (Ht : JS.truthyNum (Some n) = true)
    by (cbn; apply negb_true_iff, Z.eqb_neq, Hn).
  split.
  - destruct (SpawnAsyncFacts.spawnAsync_terminal pf command options onStdout
                stdoutBuffer onStderr stderrBuffer token caller pre
                (Close (Some n) signal) post eq_refl)
      as (mid & st & Hmid & Hst & Hp & Htok & Hq & _).
    unfold closeOutcome in Hp. rewrite Htok, Hreq, Ht, (Hq Hquiet) in Hp.
    eexists st, _. split; [exact Hst|]. split; [exact Hp|reflexivity].
  - destruct (SpawnStreamAsyncFacts.spawnStreamAsync_terminal command options
                onStdoutChunk onStderrChunk token callerT pre
                (Close (Some n) signal) post eq_refl) as (Hp & Htok & Hq & _).
    unfold closeOutcome in Hp. rewrite Htok, Hreq, Ht, (Hq Hquiet) in Hp.
    eexists. split; [exact Hp|reflexivity].
Qed.

(** C8, as the code has it: [spawnStreamAsync] gathers the chunks of stderr,
    in the order of arrival, only when the caller supplied a stderr callback
    (and stderr is a pipe); without one nothing is gathered.  The message of
    a non-zero exit always ends with the normalized text of what was
    gathered, which is empty without a callback. *)
Theorem stream_gathers_stderr_for_callback
    (pre post : list Event) (n : Z) (signal : option jsstring) :
  quiet pre = true ->
  requestedBy token pre = false ->
  n <> 0%Z ->
  SpawnStreamAsync.errorChunks (streamed pre)
    = (if notNull onStderrChunk && pipes options then chunksOf Stderr pre else [])
  /\ SpawnStreamAsync.promise (streamed (pre ++ Close (Some n) signal :: post)) =
     Rejected (ExecFailure {|
       message :=
         JS.lit "Process '"
         ++ (if 50 <? length command then take 50 command ++ JS.lit "..."
             else command)
         ++ JS.lit "' exited with code " ++ JS.ofZ n
         ++ [0x0A]%N ++ JS.lit "Error: "
         ++ bufferToString
              (Buffer.concat
                 (if notNull onStderrChunk && pipes options
                  then chunksOf Stderr pre else []));
       code := Some n;
       signal := signal;
       stdErrHandled := false |}).
Proof.
  intros Hquiet Hreq Hn.
  assert (Ht : JS.truthyNum (Some n) = true)
    by (cbn; apply negb_true_iff, Z.eqb_neq, Hn).
  destruct (SpawnStreamAsyncFacts.spawnStreamAsync_terminal command options
              onStdoutChunk onStderrChunk token callerT pre
              (Close (Some n) signal) post eq_refl) as (Hp & Htok & Hq & Hch).
  split; [exact Hch|].
  unfold closeOutcome in Hp. rewrite Htok, Hreq, Ht, (Hq Hquiet) in Hp.
  rewrite Hp. cbn [settle]. do 3 f_equal.
  unfold streamFailureMessage. rewrite Hch.
  rewrite exitedMessage_text, exitedErrorMessage_text, <- !app_assoc. reflexivity.
Qed.

End Operations.

(** C5 as stated fails: when the launch fails, Node emits ['error'] and then
    ['close']; both handlers dispose the listener, which makes two calls of
    [dispose()] in one operation. *)
Lemma launch_error_disposes_twice :
  (exists st,
     SpawnAsync.spawnAsync macHost (JS.lit "nosuchtool") None None None None None
       (Some freshToken) tt [Error enoent; Close (Some (-2)%Z) None] = Some st
     /\ SpawnAsync.promise st = Rejected (Thrown enoent)
     /\ SpawnAsync.cancellationListener st = Some {| disposeCalls := 2 |})
  /\ SpawnStreamAsync.cancellationListener
       (SpawnStreamAsync.spawnStreamAsync (JS.lit "nosuchtool") None None None
          (Some freshToken) tt [Error enoent; Close (Some (-2)%Z) None])
     = Some {| disposeCalls := 2 |}.
Proof.
  split; [|reflexivity].
  eexists. split; [vm_compute; reflexivity|]. split; reflexivity.
Qed.

(** C4: with two bounded sinks [spawnAsync] goes through every trace without
    an error, however much output there is.  Each chunk is written at the
    cursor of its sink and the cursor moves by the number of bytes written;
    a write keeps the length of the buffer and ends within it, so the cursor
    never passes the capacity and what does not fit is dropped.  The class of
    the outcome is that of the arbiter, in which neither the sinks nor the
    chunks occur. *)
Theorem bounded_sinks_truncate_silently {S : Type}
    (pf : Platform) (command : jsstring) (options : option SpawnOptions)
    (onStdout onStderr : option (@SpawnAsync.Progress S))
    (stdoutBuffer stderrBuffer : Buffer.t)
    (token : option CancellationToken) (caller : S) (trace : list Event) :
  exists st out err,
    SpawnAsync.spawnAsync pf command options onStdout (Some stdoutBuffer)
      onStderr (Some stderrBuffer) token caller trace = Some st
    /\ SpawnAsync.stdoutBuffer st = Some out
    /\ SpawnAsync.stderrBuffer st = Some err
    /\ (out, SpawnAsync.stdoutBytesWritten st)
       = capture stdoutBuffer 0 (if pipes options then chunksOf Stdout trace else [])
    /\ (err, SpawnAsync.stderrBytesWritten st)
       = capture stderrBuffer 0 (if pipes options then chunksOf Stderr trace else [])
    /\ length out = length stdoutBuffer
    /\ length err = length stderrBuffer
    /\ SpawnAsync.stdoutBytesWritten st <= length stdoutBuffer
    /\ SpawnAsync.stderrBytesWritten st <= length stderrBuffer
    /\ outcomeClass (SpawnAsync.promise st)
       = arbiter (notNull onStderr) token Pending trace
    /\ (forall b data cursor,
          cursor <= length b ->
          exists b' n,
            Buffer.write b data cursor = Some (b', n)
            /\ length b' = length b /\ cursor + n <= length b).
Proof.
  destruct (SpawnAsyncFacts.start_state pf command options onStdout
              (Some stdoutBuffer) onStderr (Some stderrBuffer) token caller)
    as (Hp & Ht & _ & Ho & He & Hwo & Hwe & Hlo & Hle & Hb).
  cbv zeta in *.
  destruct (SpawnAsyncFacts.run_inBounds command onStdout onStderr trace _ Hb)
    as (st & Hst & _).
  destruct (SpawnAsyncFacts.run_sinks _ _ _ _ _ _ Hb Hst) as (_ & _ & Hso & Hse).
  pose proof (SpawnAsyncFacts.run_arbiter _ _ _ _ _ _ Hst) as Harb.
  rewrite Hp, Ht in Harb.
  rewrite Ho, Hwo, Hlo in Hso. rewrite He, Hwe, Hle in Hse.
  rewrite !orb_true_r in *. cbn [andb sinkAfter] in *.
  pose proof (SpawnAsyncFacts.capture_length stdoutBuffer 0
                (if pipes options then chunksOf Stdout trace else [])
                (Nat.le_0_l _)) as [Hl1 Hl2].
  pose proof (SpawnAsyncFacts.capture_length stderrBuffer 0
                (if pipes options then chunksOf Stderr trace else [])
                (Nat.le_0_l _)) as [Hl3 Hl4].
  destruct (capture stdoutBuffer 0 _) as [out k1].
  destruct (capture stderrBuffer 0 _) as [err k2].
  injection Hso as Hso1 Hso2. injection Hse as Hse1 Hse2. cbn [fst snd] in *.
  exists st, out, err. unfold SpawnAsync.spawnAsync.
  repeat split; try assumption; try congruence.
  intros b data cursor Hc. apply write_in_bounds, Hc.
Qed.

(** An output of nine bytes in sinks of four: the first four are kept, the
    operation succeeds. *)
Example execAsync_truncates :
  execAsync (S:=unit) macHost (JS.lit "yes") (Some fourBytes) None tt
    [Data Stdout (Buffer.ofString "hello"); Data Stdout (Buffer.ofString "more");
     Close (Some 0%Z) None]
  = Some (Returned {| stdout := JS.lit "hell"; stderr := [] |}).
Proof. vm_compute. reflexivity. Qed.

(** ** Instances *)

(** C1 at work: cancellation is requested while the process runs, which then
    closes with exit code 143. *)
Lemma cancellation_overrides_exit_code_witness :
  requestedBy (Some freshToken) [Data Stdout boom; CancellationRequested] = true
  /\ SpawnStreamAsync.promise
       (SpawnStreamAsync.spawnStreamAsync (JS.lit "sleep 9") None None None
          (Some freshToken) tt
          ([Data Stdout boom; CancellationRequested] ++ [Close (Some 143%Z) None]))
     = Rejected UserCancelledError.
Proof.
  split; [reflexivity|].
  destruct (cancellation_overrides_exit_code (S:=unit) (T:=unit) macHost
              (JS.lit "sleep 9") None None None None None None None
              (Some freshToken) tt tt [Data Stdout boom; CancellationRequested] []
              (Some 143%Z) None eq_refl) as (_ & _ & H).
  exact (H eq_refl).
Defined.

(** C9 at work: the shell cannot be started. *)
Lemma launch_error_propagates_witness :
  quiet [Data Stderr boom] = true
  /\ SpawnStreamAsync.promise
       (SpawnStreamAsync.spawnStreamAsync (JS.lit "nosuchtool") None None None
          None tt ([Data Stderr boom] ++ [Error enoent; Close (Some (-2)%Z) None]))
     = Rejected (Thrown enoent).
Proof.
  split; [reflexivity|].
  destruct (launch_error_propagates (S:=unit) (T:=unit) macHost
              (JS.lit "nosuchtool") None None None None None None None None tt tt
              [Data Stderr boom] [Close (Some (-2)%Z) None] enoent eq_refl)
    as (_ & H).
  exact H.
Defined.

(** C10 at work: the process is killed by a signal and reports no exit
    code. *)
Lemma falsy_exit_code_resolves_witness :
  quiet [Data Stdout boom] = true
  /\ requestedBy (Some freshToken) [Data Stdout boom] = false
  /\ JS.truthyNum None = false
  /\ SpawnStreamAsync.promise
       (SpawnStreamAsync.spawnStreamAsync (JS.lit "sleep 9") None None None
          (Some freshToken) tt
          ([Data Stdout boom] ++ [Close None (Some (JS.lit "SIGKILL"))]))
     = Resolved.
Proof.
  split; [reflexivity|]. split; [reflexivity|]. split; [reflexivity|].
  destruct (falsy_exit_code_resolves (S:=unit) (T:=unit) macHost
              (JS.lit "sleep 9") None None None None None None None
              (Some freshToken) tt tt [Data Stdout boom] [] None
              (Some (JS.lit "SIGKILL")) eq_refl eq_refl eq_refl) as (_ & H).
  exact H.
Defined.

(** C2 at work: [make] writes [boom] to stderr and exits with code 2. *)
Lemma nonzero_exit_rejects_with_exec_error_witness :
  quiet [Data Stderr boom] = true
  /\ requestedBy None [Data Stderr boom] = false
  /\ 2%Z <> 0%Z
  /\ exists st,
       SpawnAsync.spawnAsync macHost (JS.lit "make") None None None None
         (Some (Buffer.alloc 8)) None tt
         ([Data Stderr boom] ++ [Close (Some 2%Z) None]) = Some st
       /\ SpawnAsync.promise st =
          Rejected (ExecFailure {|
            message := JS.lit "Process 'make' exited with code 2" ++ [0x0A]%N
                       ++ JS.lit "Error: boom";
            code := Some 2%Z;
            signal := None;
            stdErrHandled := false |}).
Proof.
  split; [reflexivity|]. split; [reflexivity|]. split; [discriminate|].
  destruct (nonzero_exit_rejects_with_exec_error (S:=unit) macHost (JS.lit "make")
              None None None None (Some (Buffer.alloc 8)) None tt
              [Data Stderr boom] [] 2%Z None eq_refl eq_refl)
    as (st & H1 & H2); [discriminate|].
  exists st. split; [exact H1|]. rewrite H2. reflexivity.
Defined.

(** C7 at work in [spawnAsync], with a stderr handler. *)
Lemma stdErrHandled_flag_witness :
  quiet [Data Stderr boom] = true
  /\ requestedBy None [Data Stderr boom] = false
  /\ 2%Z <> 0%Z
  /\ exists st e,
       SpawnAsync.spawnAsync macHost (JS.lit "make") None None None (Some keep)
         None None [] ([Data Stderr boom] ++ [Close (Some 2%Z) None]) = Some st
       /\ SpawnAsync.promise st = Rejected (ExecFailure e)
       /\ stdErrHandled e = true.
Proof.
  split; [reflexivity|]. split; [reflexivity|]. split; [discriminate|].
  destruct (stdErrHandled_flag (T:=unit) macHost (JS.lit "make")
              None None (Some keep) None None None None None [] tt
              [Data Stderr boom] [] 2%Z None eq_refl eq_refl)
    as ((st & e & H1 & H2 & H3) & _); [discriminate|].
  exists st, e. split; [exact H1|]. split; [exact H2|exact H3].
Defined.

(** C7 as stated fails: [spawnStreamAsync] sets the flag to [false] although
    the caller supplied a stderr callback. *)
Lemma stream_flag_false_with_callback :
  notNull (Some pushStderr) = true
  /\ SpawnStreamAsync.promise
       (SpawnStreamAsync.spawnStreamAsync (JS.lit "make") None (Some pushStdout)
          (Some pushStderr) None noChunks [Data Stderr boom; Close (Some 2%Z) None])
     = Rejected (ExecFailure {|
         message := JS.lit "Process 'make' exited with code 2" ++ [0x0A]%N
                    ++ JS.lit "Error: boom";
         code := Some 2%Z;
         signal := None;
         stdErrHandled := false |}).
Proof. split; reflexivity. Qed.

(** C8 at work: with a callback the chunks of stderr are gathered in the
    order of arrival. *)
Lemma stream_gathers_stderr_for_callback_witness :
  quiet [Data Stderr boom; Data Stdout boom; Data Stderr (Buffer.ofString "!")] = true
  /\ requestedBy None
       [Data Stderr boom; Data Stdout boom; Data Stderr (Buffer.ofString "!")] = false
  /\ 2%Z <> 0%Z
  /\ SpawnStreamAsync.errorChunks
       (SpawnStreamAsync.spawnStreamAsync (JS.lit "make") None None
          (Some pushStderr) None noChunks
          [Data Stderr boom; Data Stdout boom; Data Stderr (Buffer.ofString "!")])
     = [boom; Buffer.ofString "!"].
Proof.
  split; [reflexivity|]. split; [reflexivity|]. split; [discriminate|].
  destruct (stream_gathers_stderr_for_callback (T:=Chunks) (JS.lit "make") None
              None (Some pushStderr) None noChunks
              [Data Stderr boom; Data Stdout boom; Data Stderr (Buffer.ofString "!")]
              [] 2%Z None eq_refl eq_refl) as (H & _); [discriminate|].
  exact H.
Defined.

(** C8 as stated fails: without a stderr callback [spawnStreamAsync] gathers
    no chunk of stderr, and the message of the failure embeds none of the
    text that the process wrote. *)
Lemma stream_without_callback_gathers_nothing :
  SpawnStreamAsync.errorChunks
    (SpawnStreamAsync.spawnStreamAsync (JS.lit "make") None None None None tt
       [Data Stderr boom]) = []
  /\ SpawnStreamAsync.promise
       (SpawnStreamAsync.spawnStreamAsync (JS.lit "make") None None None None tt
          [Data Stderr boom; Close (Some 2%Z) None])
     = Rejected (ExecFailure {|
         message := JS.lit "Process 'make' exited with code 2" ++ [0x0A]%N
                    ++ JS.lit "Error: ";
         code := Some 2%Z;
         signal := None;
         stdErrHandled := false |}).
Proof. split; reflexivity. Qed.

(** * Further properties *)

Lemma decode_padding st b n :
  (forall p, st = Some p -> (0 < Buffer.plo p)%N) ->
  Buffer.decode st (b ++ replicate n Byte.x00)
  = Buffer.decode st b ++ replicate n 0%N.
Proof.
  revert st. induction b as [|byte b IH]; intros st Hst.
  - cbn [app]. revert st Hst. induction n as [|n IHn]; intros st Hst.
    + cbn. rewrite app_nil_r. reflexivity.
    + cbn [replicate Buffer.decode]. change (Byte.to_N Byte.x00) with 0%N.
      cbn -[Buffer.decode replicate].
      destruct st as [p|].
      * specialize (Hst p eq_refl).
        replace (Buffer.plo p <=? 0)%N with false by (symmetry; apply N.leb_gt; exact Hst).
        cbn -[Buffer.decode replicate]. rewrite IHn by discriminate. reflexivity.
      * rewrite IHn by discriminate. reflexivity.
  - cbn [app Buffer.decode]. cbv zeta.
    repeat case_match; cbn [app]; rewrite ?IH; try reflexivity;
      intros q Hq; simplify_eq; cbn; repeat case_match; lia.
Qed.

Lemma toString_padding b n :
  Buffer.toString (b ++ Buffer.alloc n) = Buffer.toString b ++ replicate n 0%N.
Proof.
  unfold Buffer.toString, Buffer.alloc.
  rewrite decode_padding by discriminate.
  rewrite flat_map_app. f_equal.
  induction n as [|n IH]; [reflexivity|]. cbn [replicate flat_map]. rewrite IH. reflexivity.
Qed.

Lemma filter_zeros n :
  List.filter (fun c => negb (isStripped c)) (replicate n 0%N) = [].
Proof. induction n as [|n IH]; [reflexivity|]. cbn. exact IH. Qed.

Lemma padded_not_terminated s n t : s ++ replicate (S n) 0%N <> t ++ [0x0A]%N.
Proof.
  intros H. apply (f_equal (@rev N)) in H.
  rewrite !rev_app_distr in H. cbn [rev app] in H.
  replace (replicate (S n) 0%N) with (replicate n 0%N ++ [0%N]) in H.
  - rewrite rev_app_distr in H. cbn in H. discriminate.
  - clear. induction n as [|n IH]; [reflexivity|]. cbn [replicate app] in *.
    rewrite IH. reflexivity.
Qed.

Lemma replaceAll_padded s n :
  RegExp.replaceAll false controlOrTrailingNewline [] (s ++ replicate (S n) 0%N)
  = List.filter (fun c => negb (isStripped c)) s.
Proof.
  unfold RegExp.replaceAll. rewrite replace_chomp.
  rewrite chomp_other by (intros t; apply padded_not_terminated).
  rewrite List.filter_app, filter_zeros, app_nil_r. reflexivity.
Qed.

(** A buffer followed by zero bytes, as a sink that is not full is: the zero
    bytes go, and since the text no longer ends where the output ended, no
    line terminator is removed; only the stripped characters are. *)
Theorem bufferToString_padded (b : Buffer.t) (n : nat) :
  bufferToString (b ++ Buffer.alloc (S n))
  = List.filter (fun c => negb (isStripped c)) (Buffer.toString b).
Proof.
  unfold bufferToString. rewrite toString_padding. apply replaceAll_padded.
Qed.

Lemma chomp_sublist s : sublist (chomp s) s.
Proof.
  induction s as [|c s IH]; [constructor|].
  cbn [chomp]. destruct (isTerminator (c :: s)).
  - apply sublist_nil_l.
  - apply sublist_skip, IH.
Qed.

Lemma filter_sublist (f : N -> bool) s : sublist (List.filter f s) s.
Proof.
  induction s as [|c s IH]; [constructor|].
  cbn [List.filter]. destruct (f c); [apply sublist_skip|apply sublist_cons]; exact IH.
Qed.

(** The normalizer only removes: its result has no character of the stripped
    ranges and is a subsequence of the decoded text. *)
Theorem bufferToString_clean_subsequence (buffer : Buffer.t) :
  Forall (fun c => isStripped c = false) (bufferToString buffer)
  /\ sublist (bufferToString buffer) (Buffer.toString buffer).
Proof.
  unfold bufferToString, RegExp.replaceAll. rewrite replace_chomp. split.
  - apply List.Forall_forall. intros c Hc. apply filter_In in Hc as [_ Hc].
    apply negb_true_iff, Hc.
  - etransitivity; [apply filter_sublist|apply chomp_sublist].
Qed.

Lemma isAscii_lt b : isAscii b = true -> (Byte.to_N b < 0x80)%N.
Proof. unfold isAscii. apply N.ltb_lt. Qed.

Lemma decode_ascii b :
  forallb isAscii b = true -> Buffer.decode None b = map Byte.to_N b.
Proof.
  induction b as [|x b IH]; [reflexivity|].
  cbn [forallb]. intros H. apply andb_true_iff in H as [Hx Hb].
  apply isAscii_lt in Hx. cbn [Buffer.decode map]. cbv zeta.
  replace (Byte.to_N x <=? 0x7F)%N with true by (symmetry; apply N.leb_le; lia).
  rewrite (IH Hb). reflexivity.
Qed.

Lemma toString_ascii b :
  forallb isAscii b = true -> Buffer.toString b = map Byte.to_N b.
Proof.
  intros H. unfold Buffer.toString. rewrite (decode_ascii b H). clear H.
  induction b as [|x b IH]; [reflexivity|].
  cbn [map flat_map]. rewrite IH. unfold Buffer.unitsOfCodePoint.
  replace (Byte.to_N x <? 0x10000)%N with true; [reflexivity|].
  symmetry. apply N.ltb_lt. pose proof (Byte.to_N_bounded x). lia.
Qed.

Lemma encodeChars_ascii b :
  forallb isAscii b = true ->
  Buffer.encodeChars (map Byte.to_N b) = map (fun x => [x]) b.
Proof.
  induction b as [|x b IH]; [reflexivity|].
  cbn [forallb]. intros H. apply andb_true_iff in H as [Hx Hb].
  apply isAscii_lt in Hx. cbn [map Buffer.encodeChars].
  unfold Buffer.isHighSurrogate, Buffer.isLowSurrogate.
  replace (0xD800 <=? Byte.to_N x)%N with false by (symmetry; apply N.leb_gt; lia).
  replace (0xDC00 <=? Byte.to_N x)%N with false by (symmetry; apply N.leb_gt; lia).
  cbn [andb]. rewrite (IH Hb). f_equal.
  unfold Buffer.encodeCodePoint.
  replace (Byte.to_N x <? 0x80)%N with true by (symmetry; apply N.ltb_lt; lia).
  cbn [map]. unfold Buffer.byteOfN. rewrite Byte.of_to_N. reflexivity.
Qed.

Lemma fitting_singletons room (b : Buffer.t) :
  Buffer.fitting room (map (fun x => [x]) b) = take room b.
Proof.
  revert room. induction b as [|x b IH]; intros room.
  - destruct room; reflexivity.
  - cbn [map Buffer.fitting length].
    destruct room as [|room]; [reflexivity|].
    cbn [Nat.leb take app]. rewrite IH. 
    replace (S room - 1) with room by lia. reflexivity.
Qed.

(** An ASCII chunk, decoded and encoded again, is the chunk. *)
Lemma fitting_ascii room chunk :
  forallb isAscii chunk = true ->
  Buffer.fitting room (Buffer.encodeChars (Buffer.toString chunk)) = take room chunk.
Proof.
  intros H. rewrite (toString_ascii _ H), (encodeChars_ascii _ H).
  apply fitting_singletons.
Qed.

Lemma captured_ascii room chunks :
  forallb (forallb isAscii) chunks = true ->
  captured room chunks = take room (List.concat chunks).
Proof.
  revert room. induction chunks as [|chunk rest IH]; intros room H.
  - destruct room; reflexivity.
  - cbn [forallb] in H. apply andb_true_iff in H as [Hc Hr].
    cbn [captured List.concat]. cbv zeta. rewrite (fitting_ascii _ _ Hc), (IH _ Hr).
    rewrite take_app. f_equal. f_equal. rewrite length_take. lia.
Qed.

Lemma drop_alloc k room : drop k (Buffer.alloc room) = Buffer.alloc (room - k).
Proof. unfold Buffer.alloc. apply drop_replicate. Qed.

Lemma write_at_end w room data :
  let bytes := Buffer.fitting room (Buffer.encodeChars data) in
  Buffer.write (w ++ Buffer.alloc room) data (length w)
  = Some (w ++ bytes ++ Buffer.alloc (room - length bytes), length bytes).
Proof.
  cbv zeta. unfold Buffer.write.
  assert (Hl : length (Buffer.alloc room) = room) by apply length_replicate.
  rewrite !length_app, !Hl.
  destruct (Nat.ltb_spec (length w + room) (length w)); [lia|].
  replace (length w + room - length w) with room by lia.
  rewrite take_app_length, drop_app_add', drop_alloc by reflexivity.
  reflexivity.
Qed.

Lemma capture_alloc w room chunks :
  capture (w ++ Buffer.alloc room) (length w) chunks
  = (w ++ captured room chunks ++ Buffer.alloc (room - length (captured room chunks)),
     length w + length (captured room chunks)).
Proof.
  revert w room. induction chunks as [|chunk rest IH]; intros w room.
  - cbn. rewrite Nat.sub_0_r, Nat.add_0_r. reflexivity.
  - cbn [capture captured]. rewrite write_at_end. cbv zeta.
    set (bytes := Buffer.fitting room (Buffer.encodeChars (Buffer.toString chunk))).
    rewrite app_assoc, <- length_app. rewrite IH.
    rewrite !length_app, <- !app_assoc.
    replace (room - length bytes - length (captured (room - length bytes) rest))
      with (room - (length bytes + length (captured (room - length bytes) rest)))
      by lia.
    rewrite Nat.add_assoc. reflexivity.
Qed.

Lemma filter_all (f : N -> bool) s : forallb f s = true -> List.filter f s = s.
Proof.
  induction s as [|c s IH]; [reflexivity|]. cbn [forallb List.filter].
  intros H. apply andb_true_iff in H as [-> H]. rewrite (IH H). reflexivity.
Qed.

(** ASCII text without a stripped character that does not end with a newline
    comes back as it is. *)
Theorem bufferToString_clean_ascii (b : Buffer.t) :
  forallb isAscii b = true ->
  forallb (fun x => negb (isStripped (Byte.to_N x))) b = true ->
  last b <> Some Byte.x0a ->
  bufferToString b = map Byte.to_N b.
Proof.
  intros Ha Hc Hl. unfold bufferToString, RegExp.replaceAll.
  rewrite replace_chomp, (toString_ascii _ Ha).
  rewrite chomp_other.
  - apply filter_all. clear Ha Hl.
    induction b as [|x b IH]; [reflexivity|]. cbn [forallb map] in *.
    apply andb_true_iff in Hc as [-> Hc]. exact (IH Hc).
  - intros t Ht. apply Hl.
    apply (f_equal last) in Ht. rewrite last_snoc in Ht.
    change (map Byte.to_N b) with (Byte.to_N <$> b) in Ht. rewrite fmap_last in Ht.
    destruct (last b) as [x|]; [|discriminate]. cbn in Ht.
    injection Ht as Ht. f_equal.
    change 10%N with (Byte.to_N Byte.x0a) in Ht.
    apply (f_equal Byte.of_N) in Ht. rewrite !Byte.of_to_N in Ht. congruence.
Qed.

Lemma splitOn_colon_app a b :
  splitOn 0x3A (a ++ 0x3A%N :: b) = splitOn 0x3A a ++ splitOn 0x3A b.
Proof.
  induction a as [|c a IH]; [reflexivity|].
  cbn [app splitOn]. rewrite IH.
  destruct (c =? 58)%N; [reflexivity|].
  destruct (splitOn_first a) as [segs ->]. reflexivity.
Qed.

(** The PATH check of two lists joined with a colon succeeds exactly when it
    does for one of them. *)
Theorem path_check_distributes (a b : jsstring) :
  RegExp.test true usrLocalBinPattern (a ++ [0x3A]%N ++ b)
  = RegExp.test true usrLocalBinPattern a || RegExp.test true usrLocalBinPattern b.
Proof.
  rewrite !test_usrLocalBin. unfold hasUsrLocalBin. cbn [app].
  rewrite splitOn_colon_app. apply existsb_app.
Qed.

Lemma canonicalize_colon c :
  (RegExp.canonicalize c =? 0x3A)%N = (c =? 0x3A)%N.
Proof.
  unfold RegExp.canonicalize.
  destruct (N.leb_spec 0x61 c); destruct (N.leb_spec c 0x7A); cbn [andb];
    try reflexivity.
  transitivity false; [|symmetry]; apply N.eqb_neq; lia.
Qed.

Lemma canonicalize_idem c :
  RegExp.canonicalize (RegExp.canonicalize c) = RegExp.canonicalize c.
Proof.
  unfold RegExp.canonicalize.
  destruct (N.leb_spec 0x61 c); destruct (N.leb_spec c 0x7A); cbn [andb];
    repeat match goal with
           | |- context [(?a <=? ?b)%N] => destruct (N.leb_spec a b)
           end; cbn [andb]; try reflexivity; lia.
Qed.

Lemma splitOn_canonicalize s :
  splitOn 0x3A (map RegExp.canonicalize s)
  = map (map RegExp.canonicalize) (splitOn 0x3A s).
Proof.
  induction s as [|c s IH]; [reflexivity|].
  cbn [map splitOn]. rewrite canonicalize_colon, IH.
  destruct (c =? 58)%N; [reflexivity|].
  destruct (splitOn 58 s); reflexivity.
Qed.

Lemma equalIgnoringCase_canonicalize w seg :
  equalIgnoringCase w (map RegExp.canonicalize seg) = equalIgnoringCase w seg.
Proof.
  revert seg. induction w as [|x w IH]; intros [|c seg]; try reflexivity.
  cbn [map equalIgnoringCase]. rewrite canonicalize_idem, IH. reflexivity.
Qed.

Lemma hasUsrLocalBin_canonicalize s :
  hasUsrLocalBin (map RegExp.canonicalize s) = hasUsrLocalBin s.
Proof.
  unfold hasUsrLocalBin. rewrite splitOn_canonicalize.
  induction (splitOn 58 s) as [|seg segs IH]; [reflexivity|].
  cbn [map existsb]. rewrite equalIgnoringCase_canonicalize, IH. reflexivity.
Qed.

(** Two PATHs that differ only in the case of ASCII letters pass or fail the
    check together. *)
Theorem path_check_ignores_case (s1 s2 : jsstring) :
  map RegExp.canonicalize s1 = map RegExp.canonicalize s2 ->
  RegExp.test true usrLocalBinPattern s1 = RegExp.test true usrLocalBinPattern s2.
Proof.
  intros H. rewrite !test_usrLocalBin.
  rewrite <- (hasUsrLocalBin_canonicalize s1), <- (hasUsrLocalBin_canonicalize s2), H.
  reflexivity.
Qed.

Lemma appended_has_usrLocalBin x :
  hasUsrLocalBin (x ++ JS.lit ":/usr/local/bin") = true.
Proof.
  change (JS.lit ":/usr/local/bin") with (0x3A%N :: usrLocalBin).
  unfold hasUsrLocalBin. rewrite splitOn_colon_app, existsb_app.
  apply orb_true_r.
Qed.

(** After the fix-up the check passes: a second fix-up leaves the options as
    they are and logs nothing. *)
Theorem fixPath_idempotent (pf : Platform) (options : SpawnOptions) :
  fixPathForMacIfNeeded pf (fst (fixPathForMacIfNeeded pf options))
  = (fst (fixPathForMacIfNeeded pf options), []).
Proof.
  unfold fixPathForMacIfNeeded at 2 3.
  destruct (isWindows pf) eqn:Hw.
  - cbn [fst]. unfold fixPathForMacIfNeeded. rewrite Hw. reflexivity.
  - destruct (RegExp.test true usrLocalBinPattern (effectivePath pf options)) eqn:Ht.
    + cbn [fst]. unfold fixPathForMacIfNeeded. rewrite Hw, Ht. reflexivity.
    + cbn [fst]. unfold fixPathForMacIfNeeded. rewrite Hw.
      set (e := match env options with Some e => e | None => processEnv pf end).
      set (v := JS.ofOption (e !! "PATH") ++ JS.lit ":/usr/local/bin").
      assert (He : effectivePath pf (withEnv (<["PATH" := v]> e) options) = v).
      { unfold effectivePath. cbn [env withEnv]. cbn [mbind option_bind].
        rewrite lookup_insert_eq. subst v.
        destruct (JS.ofOption (e !! "PATH")); reflexivity. }
      rewrite He, test_usrLocalBin. subst v. rewrite appended_has_usrLocalBin.
      reflexivity.
Qed.

(** The fix-up changes no variable of the launch environment but PATH, and no
    other option. *)
Theorem fixPath_touches_only_path (pf : Platform) (options : SpawnOptions) (k : string) :
  k <> "PATH" ->
  let fixed := fst (fixPathForMacIfNeeded pf options) in
  default (processEnv pf) (env fixed) !! k = default (processEnv pf) (env options) !! k
  /\ stdin fixed = stdin options /\ shell fixed = shell options
  /\ stdio fixed = stdio options /\ maxBuffer fixed = maxBuffer options.
Proof.
  intros Hk. unfold fixPathForMacIfNeeded.
  destruct (isWindows pf); [cbn; auto|].
  destruct (RegExp.test true usrLocalBinPattern (effectivePath pf options)); [cbn; auto|].
  cbn. split; [|auto]. rewrite lookup_insert_ne by congruence.
  destruct (env options); reflexivity.
Qed.

Lemma quiet_false_split trace :
  quiet trace = false ->
  exists pre ev post,
    trace = pre ++ ev :: post /\ quiet pre = true /\ isTerminal ev = true.
Proof.
  induction trace as [|ev trace IH]; [discriminate|].
  cbn [quiet forallb]. destruct (isTerminal ev) eqn:Hev; cbn [negb andb].
  - intros _. exists [], ev, trace. auto.
  - intros H. destruct (IH H) as (pre & ev' & post & -> & Hq & Ht).
    exists (ev :: pre), ev', post. cbn [quiet forallb]. rewrite Hev. auto.
Qed.

Lemma settle_not_pending o p : o <> Pending -> settle o p <> Pending.
Proof. destruct p; cbn; congruence. Qed.

Lemma terminal_outcome_settled ev (m : option Z -> jsstring) f t p :
  isTerminal ev = true ->
  match ev with
  | Error err => settle (Rejected (Thrown err)) p
  | Close code signal => settle (closeOutcome (m code) f t code signal) p
  | _ => p
  end <> Pending.
Proof.
  destruct ev; try discriminate; intros _; apply settle_not_pending;
    [discriminate|apply closeOutcome_settled].
Qed.

Module StreamOutcomeFacts.
Import SpawnStreamAsync SpawnStreamAsyncFacts.
Section Facts.
Context {S : Type}.
Variable command : jsstring.
Variables onStdout onStderr : option (@OnChunk S).
Local Opaque exitedMessage exitedErrorMessage bufferToString.


End Facts.
End StreamOutcomeFacts.




Lemma feedStdin_launched command o :
  feedStdin o (spawn command o) = launched command o 0.
Proof.
  unfold feedStdin, launched, piped, spawn, writeAndEndStdin. cbn.
  destruct (JS.truthyStr (stdin o)); [|reflexivity].
  destruct (stdio o); reflexivity.
Qed.

Lemma kill_launched command o n : kill (launched command o n) = launched command o (S n).
Proof. reflexivity. Qed.

Module StreamProcessFacts.
Import SpawnStreamAsync SpawnStreamAsyncFacts.
Section Facts.
Context {S : Type}.
Variable command : jsstring.
Variables onStdout onStderr : option (@OnChunk S).
Local Opaque exitedMessage exitedErrorMessage bufferToString.

Lemma stream_handle_process ev st :
  process (handle command onStdout onStderr ev st) =
  match ev with
  | CancellationRequested =>
      if registered (token st) (cancellationListener st) then kill (process st)
      else process st
  | _ => process st
  end
  /\ stdoutListening (handle command onStdout onStderr ev st) = stdoutListening st.
Proof.
  destruct ev as [[] chunk|err|code signal|]; cbn [handle].
  - unfold onData, deliver. repeat case_match; cbn; auto.
  - unfold onData, deliver. repeat case_match; cbn; auto.
  - cbn. auto.
  - unfold onClose. repeat case_match; cbn; auto.
  - unfold onCancellationRequested, registered. repeat case_match; cbn in *; auto; try congruence.
Qed.


Lemma stream_ignores_stdout trace st :
  stdoutListening st = false ->
  run command onStdout onStderr trace st
  = run command onStdout onStderr (withoutStream Stdout trace) st.
Proof.
  revert st. induction trace as [|ev trace IH]; intros st Hl; [reflexivity|].
  destruct (stream_handle_process ev st) as (_ & Hl').
  destruct ev as [[] chunk|err|code signal|]; cbn [withoutStream List.filter];
    fold (withoutStream Stdout trace); rewrite ?stream_run_cons.
  - cbn [handle onData]. rewrite Hl. apply IH, Hl.
  - apply IH. rewrite Hl'. exact Hl.
  - apply IH. rewrite Hl'. exact Hl.
  - apply IH. rewrite Hl'. exact Hl.
  - apply IH. rewrite Hl'. exact Hl.
Qed.

End Facts.
End StreamProcessFacts.

Module SpawnProcessFacts.
Import SpawnAsync SpawnAsyncFacts.
Section Facts.
Context {S : Type}.
Variable command : jsstring.
Variables onStdout onStderr : option (@Progress S).
Local Opaque exitedMessage exitedErrorMessage bufferToString Buffer.toString Buffer.write.

Lemma handle_outputChannel ev st st' :
  handle command onStdout onStderr ev st = Some st' ->
  outputChannel st' = outputChannel st.
Proof.
  destruct ev as [[] chunk|err|code signal|]; cbn [handle]; intros H.
  - unfold onData in H.
    destruct (progress_frame onStdout (Buffer.toString chunk) st)
      as (_ & _ & _ & _ & _ & _ & _ & _ & _ & Ho).
    repeat case_match; try (destruct (Buffer.write _ _ _) as [[? ?]|] eqn:?);
      simplify_eq/=; auto.
  - unfold onData in H.
    destruct (progress_frame onStderr (Buffer.toString chunk) st)
      as (_ & _ & _ & _ & _ & _ & _ & _ & _ & Ho).
    repeat case_match; try (destruct (Buffer.write _ _ _) as [[? ?]|] eqn:?);
      simplify_eq/=; auto.
  - simplify_eq. reflexivity.
  - simplify_eq. unfold onClose. repeat case_match; reflexivity.
  - simplify_eq. unfold onCancellationRequested. repeat case_match; reflexivity.
Qed.

Lemma run_outputChannel trace st st' :
  run command onStdout onStderr trace st = Some st' ->
  outputChannel st' = outputChannel st.
Proof.
  revert st. induction trace as [|ev trace IH]; intros st H.
  - cbn in H. simplify_eq. reflexivity.
  - cbn [run] in H. destruct (handle command onStdout onStderr ev st) as [st1|] eqn:H1;
      [|discriminate]. cbn in H.
    rewrite (IH _ H). exact (handle_outputChannel _ _ _ H1).
Qed.

Lemma ignores_stdout trace st :
  stdoutListening st = false ->
  run command onStdout onStderr trace st
  = run command onStdout onStderr (withoutStream Stdout trace) st.
Proof.
  revert st. induction trace as [|ev trace IH]; intros st Hl; [reflexivity|].
  assert (Hstep : forall st1, handle command onStdout onStderr ev st = Some st1 ->
                              stdoutListening st1 = false).
  { intros st1 H1. destruct (handle_sinks _ _ _ _ _ _ H1) as (-> & _). exact Hl. }
  destruct ev as [[] chunk|err|code signal|]; cbn [withoutStream List.filter];
    fold (withoutStream Stdout trace); cbn [run].
  - cbn [handle onData]. rewrite Hl. cbn. apply IH, Hl.
  - destruct (handle command onStdout onStderr (Data Stderr chunk) st) as [st1|];
      cbn; [apply IH, Hstep; reflexivity|reflexivity].
  - cbn. apply IH, Hstep. reflexivity.
  - cbn. apply IH, Hstep. reflexivity.
  - cbn. apply IH, Hstep. reflexivity.
Qed.

Lemma ignores_stderr trace st :
  stderrListening st = false ->
  run command onStdout onStderr trace st
  = run command onStdout onStderr (withoutStream Stderr trace) st.
Proof.
  revert st. induction trace as [|ev trace IH]; intros st Hl; [reflexivity|].
  assert (Hstep : forall st1, handle command onStdout onStderr ev st = Some st1 ->
                              stderrListening st1 = false).
  { intros st1 H1. destruct (handle_sinks _ _ _ _ _ _ H1) as (_ & -> & _). exact Hl. }
  destruct ev as [[] chunk|err|code signal|]; cbn [withoutStream List.filter];
    fold (withoutStream Stderr trace); cbn [run].
  - destruct (handle command onStdout onStderr (Data Stdout chunk) st) as [st1|];
      cbn; [apply IH, Hstep; reflexivity|reflexivity].
  - cbn [handle onData]. rewrite Hl. cbn. apply IH, Hl.
  - cbn. apply IH, Hstep. reflexivity.
  - cbn. apply IH, Hstep. reflexivity.
  - cbn. apply IH, Hstep. reflexivity.
Qed.

End Facts.

Section NoCallbacks.
Context {S : Type}.
Variable command : jsstring.
Local Opaque exitedMessage exitedErrorMessage bufferToString Buffer.toString Buffer.write.



End NoCallbacks.
End SpawnProcessFacts.


Lemma start_launch {S : Type} pf command options
    (onStdout : option (@SpawnAsync.Progress S)) stdoutBuffer
    (onStderr : option (@SpawnAsync.Progress S)) stderrBuffer token caller :
  let fixed := fixPathForMacIfNeeded pf (withShell (default noOptions options)) in
  let st := SpawnAsync.start pf command options onStdout stdoutBuffer onStderr
              stderrBuffer token caller in
  SpawnAsync.subprocess st = launched command (fst fixed) 0
  /\ SpawnAsync.outputChannel st = snd fixed.
Proof.
  cbv zeta. unfold SpawnAsync.start.
  destruct (fixPathForMacIfNeeded pf (withShell (default noOptions options)))
    as [o warnings].
  cbn. split; [apply feedStdin_launched|reflexivity].
Qed.

Section Lifecycle.
Context {S T : Type}.
Variables (pf : Platform) (command : jsstring) (options : option SpawnOptions).
Variables (onStdout onStderr : option (@SpawnAsync.Progress S)).
Variables (stdoutBuffer stderrBuffer : option Buffer.t).
Variables (onStdoutChunk onStderrChunk : option (@SpawnStreamAsync.OnChunk T)).
Variables (token : option CancellationToken) (caller : S) (callerT : T).

Local Abbreviation buffered :=
  (SpawnAsync.spawnAsync pf command options onStdout stdoutBuffer onStderr
     stderrBuffer token caller).
Local Abbreviation streamed :=
  (SpawnStreamAsync.spawnStreamAsync command options onStdoutChunk onStderrChunk
     token callerT).


(** Once an ['error'] or ['close'] event has come, the promise is settled and
    no later event changes what it was settled with. *)
Theorem settled_outcome_is_final (a b : list Event) :
  quiet a = false ->
  (exists st1 st2,
     buffered a = Some st1 /\ buffered (a ++ b) = Some st2
     /\ SpawnAsync.promise st1 <> Pending
     /\ SpawnAsync.promise st2 = SpawnAsync.promise st1)
  /\ SpawnStreamAsync.promise (streamed a) <> Pending
  /\ SpawnStreamAsync.promise (streamed (a ++ b)) = SpawnStreamAsync.promise (streamed a).
Proof.
  intros Hq.
  destruct (quiet_false_split _ Hq) as (pre & ev & post & -> & Hpre & Hev).
  split.
  - destruct (SpawnAsyncFacts.spawnAsync_terminal pf command options onStdout
                stdoutBuffer onStderr stderrBuffer token caller pre ev post Hev)
      as (mid & st1 & _ & Hst1 & Hp1 & _).
    destruct (SpawnAsyncFacts.start_state pf command options onStdout stdoutBuffer
                onStderr stderrBuffer token caller) as (_ & _ & _ & _ & _ & _ & _ & _ & _ & Hb).
    destruct (SpawnAsyncFacts.run_inBounds command onStdout onStderr
                ((pre ++ ev :: post) ++ b) _ Hb) as (st2 & Hst2 & _).
    exists st1, st2. split; [exact Hst1|]. split; [exact Hst2|].
    assert (Hset : SpawnAsync.promise st1 <> Pending).
    { rewrite Hp1. exact (terminal_outcome_settled ev (spawnFailureMessage command mid)
                            _ _ _ Hev). }
    split; [exact Hset|].
    unfold SpawnAsync.spawnAsync in *. rewrite SpawnAsyncFacts.run_app, Hst1 in Hst2.
    cbn in Hst2.
    destruct (SpawnAsyncFacts.run_control _ _ _ _ _ _ Hst2) as (_ & Hk & _).
    exact (Hk Hset).
  - destruct (SpawnStreamAsyncFacts.spawnStreamAsync_terminal command options
                onStdoutChunk onStderrChunk token callerT pre ev post Hev)
      as (Hp & _).
    assert (Hset : SpawnStreamAsync.promise (streamed (pre ++ ev :: post)) <> Pending).
    { rewrite Hp. exact (terminal_outcome_settled ev (streamFailureMessage command _)
                           _ _ _ Hev). }
    split; [exact Hset|].
    unfold SpawnStreamAsync.spawnStreamAsync in *.
    rewrite SpawnStreamAsyncFacts.stream_run_app.
    destruct (SpawnStreamAsyncFacts.stream_run_control command onStdoutChunk
                onStderrChunk b
                (SpawnStreamAsync.run command onStdoutChunk onStderrChunk
                   (pre ++ ev :: post)
                   (SpawnStreamAsync.start command options onStdoutChunk onStderrChunk
                      token callerT))) as (_ & Hk & _).
    exact (Hk Hset).
Qed.


End Lifecycle.


(** [spawnAsync] writes to the output channel at launch only: the PATH warning,
    once, exactly when the fix-up applies; no event adds a line. *)
Theorem spawnAsync_warns_at_launch_only {S : Type} (pf : Platform) (command : jsstring)
    (options : option SpawnOptions)
    (onStdout onStderr : option (@SpawnAsync.Progress S))
    (stdoutBuffer stderrBuffer : option Buffer.t)
    (token : option CancellationToken) (caller : S) (trace : list Event) :
  exists st,
    SpawnAsync.spawnAsync pf command options onStdout stdoutBuffer onStderr
      stderrBuffer token caller trace = Some st
    /\ SpawnAsync.outputChannel st
       = if isWindows pf
            || hasUsrLocalBin (effectivePath pf (withShell (default noOptions options)))
         then [] else [pathWarning].
Proof.
  destruct (SpawnAsyncFacts.start_state pf command options onStdout stdoutBuffer
              onStderr stderrBuffer token caller) as (_ & _ & _ & _ & _ & _ & _ & _ & _ & Hb).
  destruct (SpawnAsyncFacts.run_inBounds command onStdout onStderr trace _ Hb)
    as (st & Hst & _).
  exists st. split; [exact Hst|].
  rewrite (SpawnProcessFacts.run_outputChannel _ _ _ _ _ _ Hst).
  destruct (start_launch pf command options onStdout stdoutBuffer onStderr
              stderrBuffer token caller) as (_ & ->).
  unfold fixPathForMacIfNeeded. rewrite test_usrLocalBin.
  destruct (isWindows pf); [reflexivity|]. cbn [orb].
  destruct (hasUsrLocalBin _); reflexivity.
Qed.

(** A stream for which the caller gave neither callback nor buffer is not
    listened to: its chunks change nothing, the final state is that of the
    trace without them. *)
Theorem unrequested_streams_are_ignored {S T : Type} (pf : Platform)
    (command : jsstring) (options : option SpawnOptions)
    (onStdout onStderr : option (@SpawnAsync.Progress S))
    (stdoutBuffer stderrBuffer : option Buffer.t)
    (onStderrChunk : option (@SpawnStreamAsync.OnChunk T))
    (token : option CancellationToken) (caller : S) (callerT : T)
    (trace : list Event) :
  SpawnAsync.spawnAsync pf command options None None onStderr stderrBuffer
    token caller trace
  = SpawnAsync.spawnAsync pf command options None None onStderr stderrBuffer
      token caller (withoutStream Stdout trace)
  /\ SpawnAsync.spawnAsync pf command options onStdout stdoutBuffer None None
       token caller trace
     = SpawnAsync.spawnAsync pf command options onStdout stdoutBuffer None None
         token caller (withoutStream Stderr trace)
  /\ SpawnStreamAsync.spawnStreamAsync command options None onStderrChunk
       token callerT trace
     = SpawnStreamAsync.spawnStreamAsync command options None onStderrChunk
         token callerT (withoutStream Stdout trace).
Proof.
  split; [|split].
  - apply SpawnProcessFacts.ignores_stdout.
    destruct (SpawnAsyncFacts.start_state pf command options None None onStderr
                stderrBuffer token caller) as (_ & _ & _ & _ & _ & _ & _ & -> & _).
    reflexivity.
  - apply SpawnProcessFacts.ignores_stderr.
    destruct (SpawnAsyncFacts.start_state pf command options onStdout stdoutBuffer
                None None token caller) as (_ & _ & _ & _ & _ & _ & _ & _ & -> & _).
    reflexivity.
  - apply StreamProcessFacts.stream_ignores_stdout. reflexivity.
Qed.


Lemma chunksOf_app stream a b :
  chunksOf stream (a ++ b) = chunksOf stream a ++ chunksOf stream b.
Proof.
  induction a as [|ev a IH]; [reflexivity|].
  destruct ev as [[] chunk|err|code signal|], stream; cbn [app chunksOf];
    rewrite IH; reflexivity.
Qed.

Lemma chunksOf_terminal stream pre ev :
  isTerminal ev = true -> chunksOf stream (pre ++ [ev]) = chunksOf stream pre.
Proof.
  intros H. rewrite chunksOf_app.
  destruct ev; try discriminate; cbn; apply app_nil_r.
Qed.

Lemma quiet_snoc pre ev : quiet (pre ++ [ev]) = quiet pre && negb (isTerminal ev).
Proof. unfold quiet. rewrite forallb_app. cbn. rewrite andb_true_r. reflexivity. Qed.

Module AwaitFacts.
Section Buffered.
Import SpawnAsync SpawnAsyncFacts.
Context {S : Type}.
Variable command : jsstring.
Variables onStdout onStderr : option (@Progress S).
Local Opaque exitedMessage exitedErrorMessage bufferToString Buffer.toString Buffer.write.

Lemma await_settled trace st :
  promise st <> Pending -> await command onStdout onStderr trace st = Some st.
Proof. destruct trace; cbn [await]; destruct (promise st); try reflexivity; congruence. Qed.


Lemma await_terminal pre ev post st :
  promise st = Pending -> quiet pre = true -> isTerminal ev = true ->
  await command onStdout onStderr (pre ++ ev :: post) st
  = run command onStdout onStderr (pre ++ [ev]) st.
Proof.
  revert st. induction pre as [|e pre IH]; intros st Hp Hq Hev.
  - cbn [app await run]. rewrite Hp.
    destruct (handle command onStdout onStderr ev st) as [st1|] eqn:H1; [|reflexivity].
    cbn. apply await_settled.
    destruct (handle_control _ _ _ _ _ _ H1) as (-> & _).
    exact (terminal_outcome_settled ev (spawnFailureMessage command st) _ _ _ Hev).
  - cbn [quiet forallb] in Hq. apply andb_true_iff in Hq as [He Hq].
    cbn [app await run]. rewrite Hp.
    destruct (handle command onStdout onStderr e st) as [st1|] eqn:H1; [|reflexivity].
    cbn. apply IH; [|exact Hq|exact Hev].
    destruct (handle_control _ _ _ _ _ _ H1) as (-> & _).
    destruct e; try discriminate; exact Hp.
Qed.

End Buffered.

Section Streamed.
Import SpawnStreamAsync SpawnStreamAsyncFacts.
Context {S : Type}.
Variable command : jsstring.
Variables onStdout onStderr : option (@OnChunk S).
Local Opaque exitedMessage exitedErrorMessage bufferToString.

Lemma stream_await_settled trace st :
  promise st <> Pending -> await command onStdout onStderr trace st = st.
Proof. destruct trace; cbn [await]; destruct (promise st); try reflexivity; congruence. Qed.

Lemma stream_await_quiet trace st :
  promise st = Pending -> quiet trace = true ->
  await command onStdout onStderr trace st = run command onStdout onStderr trace st.
Proof.
  revert st. induction trace as [|ev trace IH]; intros st Hp Hq.
  - cbn. rewrite Hp. reflexivity.
  - cbn [quiet forallb] in Hq. apply andb_true_iff in Hq as [Hev Hq].
    cbn [await]. rewrite Hp, stream_run_cons. apply IH; [|exact Hq].
    destruct (stream_handle_control command onStdout onStderr ev st) as (-> & _).
    destruct ev; try discriminate; exact Hp.
Qed.

Lemma stream_await_terminal pre ev post st :
  promise st = Pending -> quiet pre = true -> isTerminal ev = true ->
  await command onStdout onStderr (pre ++ ev :: post) st
  = run command onStdout onStderr (pre ++ [ev]) st.
Proof.
  revert st. induction pre as [|e pre IH]; intros st Hp Hq Hev.
  - cbn [app await]. rewrite Hp. cbn [run foldl]. apply stream_await_settled.
    destruct (stream_handle_control command onStdout onStderr ev st) as (-> & _).
    exact (terminal_outcome_settled ev (streamFailureMessage command st) _ _ _ Hev).
  - cbn [quiet forallb] in Hq. apply andb_true_iff in Hq as [He Hq].
    cbn [app await]. rewrite Hp, stream_run_cons. apply IH; [|exact Hq|exact Hev].
    destruct (stream_handle_control command onStdout onStderr e st) as (-> & _).
    destruct e; try discriminate; exact Hp.
Qed.

End Streamed.

Section Pushed.
Import SpawnStreamAsync SpawnStreamAsyncFacts.
Variable command : jsstring.
Local Opaque exitedMessage exitedErrorMessage bufferToString.

(** What the two callbacks of [execStreamAsync] have gathered after a run. *)
Lemma stream_run_pushed trace st :
  let st' := run command (Some pushStdout) (Some pushStderr) trace st in
  stdoutChunks (caller st')
  = stdoutChunks (caller st)
    ++ (if stdoutListening st then chunksOf Stdout trace else [])
  /\ stderrChunks (caller st')
     = stderrChunks (caller st)
       ++ (if stderrListening st then chunksOf Stderr trace else []).
Proof.
  revert st. induction trace as [|ev trace IH]; intros st; cbv zeta.
  - cbn. destruct (stdoutListening st), (stderrListening st);
      rewrite !app_nil_r; auto.
  - rewrite stream_run_cons.
    destruct (IH (handle command (Some pushStdout) (Some pushStderr) ev st)) as (Ho & He).
    destruct (StreamProcessFacts.stream_handle_process command (Some pushStdout)
                (Some pushStderr) ev st) as (_ & Hlo).
    destruct (stream_handle_control command (Some pushStdout) (Some pushStderr) ev st)
      as (_ & _ & _ & Hle & _).
    cbv zeta in *. rewrite Ho, He, Hlo, Hle. clear Ho He Hlo Hle IH.
    destruct ev as [[] chunk|err|code signal|]; cbn [handle chunksOf].
    + unfold onData, deliver. destruct (stdoutListening st), (stderrListening st);
        cbn; rewrite <- ?app_assoc; auto.
    + unfold onData, deliver. destruct (stdoutListening st), (stderrListening st);
        cbn; rewrite <- ?app_assoc; auto.
    + cbn. auto.
    + unfold onClose. repeat case_match; cbn; auto.
    + unfold onCancellationRequested. repeat case_match; cbn; auto.
Qed.

End Pushed.
End AwaitFacts.

Section ExecFacts.

Local Opaque exitedMessage exitedErrorMessage Buffer.toString
  Buffer.write Buffer.alloc bufferSize capture.

Lemma capture_fresh size chunks :
  capture (Buffer.alloc size) 0 chunks
  = (sinkContents size chunks, length (captured size chunks)).
Proof. exact (capture_alloc [] size chunks). Qed.


(** What [execAsync] gives once the first ['error'] or ['close'] event has
    come. *)
Lemma execAsync_terminal {S : Type} (pf : Platform) (command : jsstring)
    (options : option SpawnOptions) (progress : option (@SpawnAsync.Progress S))
    (caller : S) (pre post : list Event) (ev : Event) :
  quiet pre = true -> isTerminal ev = true ->
  let size := bufferSize options in
  let out := sinkContents size (if pipes options then chunksOf Stdout pre else []) in
  let err := sinkContents size (if pipes options then chunksOf Stderr pre else []) in
  execAsync pf command options progress caller (pre ++ ev :: post) =
  Some match ev with
       | Error e => Raised (Thrown e)
       | Close code signal =>
           if JS.truthyNum code then
             Raised (ExecFailure {|
               message := exitedMessage command code
                          ++ exitedErrorMessage (bufferToString err);
               code := code; signal := signal;
               stdErrHandled := notNull progress |})
           else Returned {| stdout := bufferToString out; stderr := bufferToString err |}
       | _ => Waiting
       end.
Proof.
  intros Hq Hev. cbv zeta. unfold execAsync.
  set (size := bufferSize options).
  destruct (SpawnAsyncFacts.start_state pf command options progress
              (Some (Buffer.alloc size)) progress (Some (Buffer.alloc size)) None caller)
    as (Hp & Ht & _ & Ho & He & Hwo & Hwe & Hlo & Hle & Hb).
  cbv zeta in *.
  rewrite (AwaitFacts.await_terminal command progress progress pre ev post _ Hp Hq Hev).
  destruct (SpawnAsyncFacts.spawnAsync_terminal pf command options progress
              (Some (Buffer.alloc size)) progress (Some (Buffer.alloc size)) None caller
              pre ev [] Hev) as (mid & st & Hmid & Hst & Hprom & Htok & Hpend & Hsink).
  unfold SpawnAsync.spawnAsync in Hst. rewrite Hst. cbn [mbind option_bind].
  destruct (SpawnAsyncFacts.run_sinks _ _ _ _ _ _ Hb Hst) as (_ & _ & Hso & Hse).
  rewrite Ho, Hwo, Hlo in Hso. rewrite He, Hwe, Hle in Hse.
  rewrite !orb_true_r in *. cbn [andb sinkAfter] in *.
  rewrite !chunksOf_terminal in * by exact Hev.
  rewrite !capture_fresh in *.
  injection Hso as Hso _. injection Hse as Hse _. injection Hsink as Hsink _.
  rewrite Hprom, (Hpend Hq). f_equal.
  destruct ev as [| e | code signal |]; try discriminate; cbn [settle].
  - reflexivity.
  - unfold closeOutcome. rewrite Htok. cbn [requestedBy].
    destruct (JS.truthyNum code).
    + unfold spawnFailureMessage. rewrite Hsink. reflexivity.
    + rewrite Hso, Hse. reflexivity.
Qed.

(** What [execStreamAsync] gives then. *)
Lemma execStreamAsync_terminal (command : jsstring) (options : option SpawnOptions)
    (token : option CancellationToken) (pre post : list Event) (ev : Event) :
  quiet pre = true -> isTerminal ev = true ->
  let outs := if pipes options then chunksOf Stdout pre else [] in
  let errs := if pipes options then chunksOf Stderr pre else [] in
  execStreamAsync command options token (pre ++ ev :: post) =
  match ev with
  | Error e => Raised (Thrown e)
  | Close code signal =>
      if requestedBy token pre then Raised UserCancelledError
      else if JS.truthyNum code then
        Raised (ExecFailure {|
          message := exitedMessage command code
                     ++ exitedErrorMessage (bufferToString (Buffer.concat errs));
          code := code; signal := signal; stdErrHandled := false |})
      else Returned {| stdout := bufferToString (Buffer.concat outs);
                       stderr := bufferToString (Buffer.concat errs) |}
  | _ => Waiting
  end.
Proof.
  intros Hq Hev. cbv zeta. unfold execStreamAsync.
  destruct (SpawnStreamAsyncFacts.stream_start_state command options (Some pushStdout)
              (Some pushStderr) token {| stdoutChunks := []; stderrChunks := [] |})
    as (Hp & Ht & _ & He & Hle).
  cbv zeta in *.
  rewrite (AwaitFacts.stream_await_terminal command _ _ pre ev post _ Hp Hq Hev).
  destruct (SpawnStreamAsyncFacts.spawnStreamAsync_terminal command options
              (Some pushStdout) (Some pushStderr) token
              {| stdoutChunks := []; stderrChunks := [] |} pre ev [] Hev)
    as (Hprom & Htok & Hpend & Hch).
  unfold SpawnStreamAsync.spawnStreamAsync in *.
  destruct (AwaitFacts.stream_run_pushed command (pre ++ [ev])
              (SpawnStreamAsync.start command options (Some pushStdout)
                 (Some pushStderr) token {| stdoutChunks := []; stderrChunks := [] |}))
    as (Hso & Hse).
  cbv zeta in *. rewrite Hle in Hse.
  assert (Hlo : SpawnStreamAsync.stdoutListening
                  (SpawnStreamAsync.start command options (Some pushStdout)
                     (Some pushStderr) token
                     {| stdoutChunks := []; stderrChunks := [] |}) = pipes options).
  { cbn. unfold pipes, piped, feedStdin. repeat case_match; cbn in *; congruence. }
  rewrite Hlo in Hso. rewrite !chunksOf_terminal in * by exact Hev.
  cbn [notNull andb] in *.
  rewrite Hprom, (Hpend Hq).
  destruct ev as [| e | code signal |]; try discriminate; cbn [settle].
  - reflexivity.
  - unfold closeOutcome. rewrite Htok.
    destruct (requestedBy token pre); [reflexivity|].
    destruct (JS.truthyNum code).
    + unfold streamFailureMessage. rewrite Hch. reflexivity.
    + rewrite Hso, Hse. reflexivity.
Qed.

(** ASCII output from a piped process into a fresh sink of [size] bytes: the
    sink holds the first [size] bytes of the output, chunk after chunk, the
    rest of it is still zero, and the cursor is the number of bytes kept. *)
Theorem ascii_output_is_captured_verbatim {S : Type} (pf : Platform)
    (command : jsstring) (options : option SpawnOptions)
    (onStdout onStderr : option (@SpawnAsync.Progress S))
    (stderrBuffer : option Buffer.t) (token : option CancellationToken)
    (caller : S) (size : nat) (trace : list Event) :
  pipes options = true ->
  forallb (forallb isAscii) (chunksOf Stdout trace) = true ->
  exists st,
    SpawnAsync.spawnAsync pf command options onStdout (Some (Buffer.alloc size))
      onStderr stderrBuffer token caller trace = Some st
    /\ SpawnAsync.stdoutBuffer st
       = Some (take size (List.concat (chunksOf Stdout trace))
               ++ Buffer.alloc (size - length (List.concat (chunksOf Stdout trace))))
    /\ SpawnAsync.stdoutBytesWritten st
       = Nat.min size (length (List.concat (chunksOf Stdout trace))).
Proof.
  intros Hpipes Hascii.
  destruct (SpawnAsyncFacts.start_state pf command options onStdout
              (Some (Buffer.alloc size)) onStderr stderrBuffer token caller)
    as (_ & _ & _ & Ho & _ & Hwo & _ & Hlo & _ & Hb).
  cbv zeta in *.
  destruct (SpawnAsyncFacts.run_inBounds command onStdout onStderr trace _ Hb)
    as (st & Hst & _).
  exists st. split; [exact Hst|].
  destruct (SpawnAsyncFacts.run_sinks _ _ _ _ _ _ Hb Hst) as (_ & _ & Hso & _).
  rewrite Ho, Hwo, Hlo, Hpipes, orb_true_r in Hso. cbn [andb sinkAfter] in Hso.
  rewrite capture_fresh in Hso. unfold sinkContents in Hso.
  rewrite (captured_ascii _ _ Hascii), length_take in Hso.
  injection Hso as -> ->. split; [|reflexivity].
  replace (size - size `min` length (List.concat (chunksOf Stdout trace)))
    with (size - length (List.concat (chunksOf Stdout trace))) by lia.
  reflexivity.
Qed.

(** When the process closes with a falsy exit code, [execAsync] returns the
    normalized contents of its two sinks, each [maxBuffer] (or 10 KiB) long:
    what was captured of the chunks that came before the close, followed by
    the zero bytes that were never overwritten. *)
Theorem execAsync_returns_captured_output {S : Type} (pf : Platform)
    (command : jsstring) (options : option SpawnOptions)
    (progress : option (@SpawnAsync.Progress S)) (caller : S)
    (pre post : list Event) (code : option Z) (signal : option jsstring) :
  quiet pre = true ->
  JS.truthyNum code = false ->
  execAsync pf command options progress caller (pre ++ Close code signal :: post)
  = Some (Returned {|
      stdout := bufferToString
                  (sinkContents (bufferSize options)
                     (if pipes options then chunksOf Stdout pre else []));
      stderr := bufferToString
                  (sinkContents (bufferSize options)
                     (if pipes options then chunksOf Stderr pre else [])) |}).
Proof.
  intros Hq Hc.
  rewrite (execAsync_terminal pf command options progress caller pre post
             (Close code signal) Hq eq_refl).
  cbv zeta. rewrite Hc. reflexivity.
Qed.

(** When the process closes with a non-zero exit code, [execAsync] throws the
    error of [spawnAsync]: its message embeds the normalized stderr sink, and
    [stdErrHandled] says whether a progress callback was given. *)
Theorem execAsync_reports_failure {S : Type} (pf : Platform)
    (command : jsstring) (options : option SpawnOptions)
    (progress : option (@SpawnAsync.Progress S)) (caller : S)
    (pre post : list Event) (n : Z) (signal : option jsstring) :
  quiet pre = true ->
  n <> 0%Z ->
  execAsync pf command options progress caller (pre ++ Close (Some n) signal :: post)
  = Some (Raised (ExecFailure {|
      message :=
        exitedMessage command (Some n)
        ++ exitedErrorMessage
             (bufferToString
                (sinkContents (bufferSize options)
                   (if pipes options then chunksOf Stderr pre else [])));
      code := Some n;
      signal := signal;
      stdErrHandled := notNull progress |})).
Proof.
  intros Hq Hn.
  rewrite (execAsync_terminal pf command options progress caller pre post
             (Close (Some n) signal) Hq eq_refl).
  cbv zeta. cbn [JS.truthyNum].
  replace (n =? 0)%Z with false by (symmetry; apply Z.eqb_neq, Hn). reflexivity.
Qed.


(** When the process closes with a falsy exit code and no cancellation was
    requested, [execStreamAsync] returns, for each stream, the normalized
    concatenation of the chunks that came before the close. *)
Theorem execStreamAsync_returns_normalized_chunks (command : jsstring)
    (options : option SpawnOptions) (token : option CancellationToken)
    (pre post : list Event) (code : option Z) (signal : option jsstring) :
  quiet pre = true ->
  requestedBy token pre = false ->
  JS.truthyNum code = false ->
  execStreamAsync command options token (pre ++ Close code signal :: post)
  = Returned {|
      stdout := bufferToString
                  (Buffer.concat (if pipes options then chunksOf Stdout pre else []));
      stderr := bufferToString
                  (Buffer.concat (if pipes options then chunksOf Stderr pre else [])) |}.
Proof.
  intros Hq Hr Hc.
  rewrite (execStreamAsync_terminal command options token pre post
             (Close code signal) Hq eq_refl).
  cbv zeta. rewrite Hr, Hc. reflexivity.
Qed.

(** When the process closes with a non-zero exit code, [execStreamAsync]
    throws an error whose message embeds the very text it would have
    returned as [stderr]; the output is not returned. *)
Theorem execStreamAsync_failure_embeds_stderr (command : jsstring)
    (options : option SpawnOptions) (token : option CancellationToken)
    (pre post : list Event) (n : Z) (signal : option jsstring) :
  quiet pre = true ->
  requestedBy token pre = false ->
  n <> 0%Z ->
  execStreamAsync command options token (pre ++ Close (Some n) signal :: post)
  = Raised (ExecFailure {|
      message :=
        exitedMessage command (Some n)
        ++ exitedErrorMessage
             (bufferToString
                (Buffer.concat (if pipes options then chunksOf Stderr pre else [])));
      code := Some n;
      signal := signal;
      stdErrHandled := false |}).
Proof.
  intros Hq Hr Hn.
  rewrite (execStreamAsync_terminal command options token pre post
             (Close (Some n) signal) Hq eq_refl).
  cbv zeta. rewrite Hr. cbn [JS.truthyNum].
  replace (n =? 0)%Z with false by (symmetry; apply Z.eqb_neq, Hn). reflexivity.
Qed.

(** When cancellation was requested before the close, [execStreamAsync]
    throws [UserCancelledError] whatever the exit code; the output gathered
    so far is not returned. *)
Theorem execStreamAsync_cancelled_returns_nothing (command : jsstring)
    (options : option SpawnOptions) (token : option CancellationToken)
    (pre post : list Event) (code : option Z) (signal : option jsstring) :
  quiet pre = true ->
  requestedBy token pre = true ->
  execStreamAsync command options token (pre ++ Close code signal :: post)
  = Raised UserCancelledError.
Proof.
  intros Hq Hr.
  rewrite (execStreamAsync_terminal command options token pre post
             (Close code signal) Hq eq_refl).
  cbv zeta. rewrite Hr. reflexivity.
Qed.

Lemma forallb_concat (chunks : list Buffer.t) :
  forallb (forallb isAscii) chunks = true -> forallb isAscii (List.concat chunks) = true.
Proof.
  induction chunks as [|c chunks IH]; [reflexivity|].
  cbn [forallb List.concat]. intros H. apply andb_true_iff in H as [Hc H].
  rewrite forallb_app, Hc, (IH H). reflexivity.
Qed.

(** ASCII output shorter than the sink: [execAsync] returns it without the
    stripped characters but with its trailing newline, because in the padded
    sink the newline is not at the end of the text. *)
Theorem execAsync_keeps_trailing_newline {S : Type} (pf : Platform)
    (command : jsstring) (options : option SpawnOptions)
    (progress : option (@SpawnAsync.Progress S)) (caller : S)
    (pre post : list Event) (code : option Z) (signal : option jsstring) :
  quiet pre = true ->
  JS.truthyNum code = false ->
  pipes options = true ->
  forallb (forallb isAscii) (chunksOf Stdout pre) = true ->
  length (List.concat (chunksOf Stdout pre)) < bufferSize options ->
  exists out,
    execAsync pf command options progress caller (pre ++ Close code signal :: post)
    = Some (Returned out)
    /\ stdout out
       = List.filter (fun c => negb (isStripped c))
           (map Byte.to_N (List.concat (chunksOf Stdout pre))).
Proof.
  intros Hq Hc Hp Ha Hl.
  rewrite (execAsync_terminal pf command options progress caller pre post
             (Close code signal) Hq eq_refl).
  cbv zeta. rewrite Hc, Hp. eexists. split; [reflexivity|]. cbn [stdout].
  unfold sinkContents. rewrite (captured_ascii _ _ Ha).
  rewrite take_ge by lia.
  set (all := List.concat (chunksOf Stdout pre)) in *.
  destruct (bufferSize options - length all) as [|k] eqn:Hk; [lia|].
  unfold bufferToString. rewrite toString_padding, replaceAll_padded.
  rewrite (toString_ascii all (forallb_concat _ Ha)). reflexivity.
Qed.

End ExecFacts.

(** ** Instances of the further properties *)

(** The text [boom] is returned as it is. *)
Lemma bufferToString_clean_ascii_witness :
  forallb isAscii boom = true
  /\ forallb (fun x => negb (isStripped (Byte.to_N x))) boom = true
  /\ last boom <> Some Byte.x0a
  /\ bufferToString boom = map Byte.to_N boom.
Proof.
  split; [reflexivity|]. split; [reflexivity|]. split; [discriminate|].
  apply bufferToString_clean_ascii; [reflexivity|reflexivity|discriminate].
Defined.

(** A PATH in capitals. *)
Lemma path_check_ignores_case_witness :
  map RegExp.canonicalize (JS.lit "/bin:/USR/Local/BIN")
    = map RegExp.canonicalize (JS.lit "/BIN:/usr/local/bin")
  /\ RegExp.test true usrLocalBinPattern (JS.lit "/bin:/USR/Local/BIN")
     = RegExp.test true usrLocalBinPattern (JS.lit "/BIN:/usr/local/bin").
Proof.
  split; [reflexivity|].
  apply path_check_ignores_case. reflexivity.
Defined.

(** HOME survives the fix-up of the current environment. *)
Lemma fixPath_touches_only_path_witness :
  "HOME" <> "PATH"
  /\ default (processEnv macHost) (env (fst (fixPathForMacIfNeeded macHost noOptions)))
       !! "HOME"
     = default (processEnv macHost) (env noOptions) !! "HOME".
Proof.
  split; [discriminate|].
  destruct (fixPath_touches_only_path macHost noOptions "HOME") as (H & _);
    [discriminate|].
  exact H.
Defined.

(** A close that is followed by an error event. *)
Lemma settled_outcome_is_final_witness :
  quiet [Close (Some 0%Z) None] = false
  /\ SpawnStreamAsync.promise
       (SpawnStreamAsync.spawnStreamAsync (JS.lit "true") None None None None tt
          ([Close (Some 0%Z) None] ++ [Error enoent]))
     = SpawnStreamAsync.promise
         (SpawnStreamAsync.spawnStreamAsync (JS.lit "true") None None None None tt
            [Close (Some 0%Z) None]).
Proof.
  split; [reflexivity|].
  destruct (settled_outcome_is_final (S:=unit) (T:=unit) macHost (JS.lit "true")
              None None None None None None None None tt tt
              [Close (Some 0%Z) None] [Error enoent] eq_refl) as (_ & _ & H).
  exact H.
Defined.

(** Nine bytes into a sink of four. *)
Lemma ascii_output_is_captured_verbatim_witness :
  pipes None = true
  /\ forallb (forallb isAscii)
       (chunksOf Stdout [Data Stdout boom; Data Stderr boom; Data Stdout hiLine]) = true
  /\ exists st,
       SpawnAsync.spawnAsync macHost (JS.lit "make") None None
         (Some (Buffer.alloc 6)) None None None tt
         [Data Stdout boom; Data Stderr boom; Data Stdout hiLine] = Some st
       /\ SpawnAsync.stdoutBuffer st = Some (boom ++ [Byte.x68; Byte.x69])
       /\ SpawnAsync.stdoutBytesWritten st = 6.
Proof.
  split; [reflexivity|]. split; [reflexivity|].
  destruct (ascii_output_is_captured_verbatim (S:=unit) macHost (JS.lit "make")
              None None None None None tt 6
              [Data Stdout boom; Data Stderr boom; Data Stdout hiLine]
              eq_refl eq_refl) as (st & H1 & H2 & H3).
  exists st. split; [exact H1|]. split; [exact H2|exact H3].
Defined.

(** [execAsync] with sinks of four bytes. *)
Lemma execAsync_returns_captured_output_witness :
  quiet [Data Stdout hiLine] = true
  /\ JS.truthyNum (Some 0%Z) = false
  /\ execAsync (S:=unit) macHost (JS.lit "echo hi") (Some fourBytes) None tt
       ([Data Stdout hiLine] ++ [Close (Some 0%Z) None])
     = Some (Returned {| stdout := JS.lit "hi" ++ [0x0A]%N; stderr := [] |}).
Proof.
  split; [reflexivity|]. split; [reflexivity|].
  rewrite (execAsync_returns_captured_output (S:=unit) macHost (JS.lit "echo hi")
             (Some fourBytes) None tt [Data Stdout hiLine] [] (Some 0%Z) None
             eq_refl eq_refl).
  reflexivity.
Defined.

Lemma execAsync_reports_failure_witness :
  quiet [Data Stderr boom] = true
  /\ 2%Z <> 0%Z
  /\ execAsync (S:=unit) macHost (JS.lit "make") (Some fourBytes) None tt
       ([Data Stderr boom] ++ [Close (Some 2%Z) None])
     = Some (Raised (ExecFailure {|
         message := JS.lit "Process 'make' exited with code 2" ++ [0x0A]%N
                    ++ JS.lit "Error: boom";
         code := Some 2%Z;
         signal := None;
         stdErrHandled := false |})).
Proof.
  split; [reflexivity|]. split; [discriminate|].
  rewrite (execAsync_reports_failure (S:=unit) macHost (JS.lit "make")
             (Some fourBytes) None tt [Data Stderr boom] [] 2%Z None eq_refl);
    [reflexivity|discriminate].
Defined.

(** The newline of [hi] is returned. *)
Lemma execAsync_keeps_trailing_newline_witness :
  quiet [Data Stdout hiLine] = true
  /\ JS.truthyNum (Some 0%Z) = false
  /\ pipes (Some fourBytes) = true
  /\ forallb (forallb isAscii) (chunksOf Stdout [Data Stdout hiLine]) = true
  /\ length (List.concat (chunksOf Stdout [Data Stdout hiLine])) < bufferSize (Some fourBytes)
  /\ exists out,
       execAsync (S:=unit) macHost (JS.lit "echo hi") (Some fourBytes) None tt
         ([Data Stdout hiLine] ++ [Close (Some 0%Z) None]) = Some (Returned out)
       /\ stdout out = JS.lit "hi" ++ [0x0A]%N.
Proof.
  split; [reflexivity|]. split; [reflexivity|]. split; [reflexivity|].
  split; [reflexivity|]. split; [cbn; lia|].
  destruct (execAsync_keeps_trailing_newline (S:=unit) macHost (JS.lit "echo hi")
              (Some fourBytes) None tt [Data Stdout hiLine] [] (Some 0%Z) None
              eq_refl eq_refl eq_refl eq_refl) as (out & H1 & H2); [cbn; lia|].
  exists out. split; [exact H1|]. rewrite H2. reflexivity.
Defined.

Lemma execStreamAsync_returns_normalized_chunks_witness :
  quiet [Data Stdout hiLine; Data Stderr boom; Data Stdout hiLine] = true
  /\ requestedBy None [Data Stdout hiLine; Data Stderr boom; Data Stdout hiLine] = false
  /\ JS.truthyNum (Some 0%Z) = false
  /\ execStreamAsync (JS.lit "echo hi; echo hi") None None
       ([Data Stdout hiLine; Data Stderr boom; Data Stdout hiLine]
        ++ [Close (Some 0%Z) None])
     = Returned {| stdout := JS.lit "hi" ++ [0x0A]%N ++ JS.lit "hi";
                   stderr := JS.lit "boom" |}.
Proof.
  split; [reflexivity|]. split; [reflexivity|]. split; [reflexivity|].
  rewrite (execStreamAsync_returns_normalized_chunks (JS.lit "echo hi; echo hi")
             None None [Data Stdout hiLine; Data Stderr boom; Data Stdout hiLine] []
             (Some 0%Z) None eq_refl eq_refl eq_refl).
  reflexivity.
Defined.

Lemma execStreamAsync_failure_embeds_stderr_witness :
  quiet [Data Stderr boom] = true
  /\ requestedBy None [Data Stderr boom] = false
  /\ 2%Z <> 0%Z
  /\ execStreamAsync (JS.lit "make") None None
       ([Data Stderr boom] ++ [Close (Some 2%Z) None])
     = Raised (ExecFailure {|
         message := JS.lit "Process 'make' exited with code 2" ++ [0x0A]%N
                    ++ JS.lit "Error: boom";
         code := Some 2%Z;
         signal := None;
         stdErrHandled := false |}).
Proof.
  split; [reflexivity|]. split; [reflexivity|]. split; [discriminate|].
  rewrite (execStreamAsync_failure_embeds_stderr (JS.lit "make") None None
             [Data Stderr boom] [] 2%Z None eq_refl eq_refl);
    [reflexivity|discriminate].
Defined.

Lemma execStreamAsync_cancelled_returns_nothing_witness :
  quiet [Data Stdout hiLine; CancellationRequested] = true
  /\ requestedBy (Some freshToken) [Data Stdout hiLine; CancellationRequested] = true
  /\ execStreamAsync (JS.lit "sleep 9") None (Some freshToken)
       ([Data Stdout hiLine; CancellationRequested] ++ [Close None (Some (JS.lit "SIGTERM"))])
     = Raised UserCancelledError.
Proof.
  split; [reflexivity|]. split; [reflexivity|].
  exact (execStreamAsync_cancelled_returns_nothing (JS.lit "sleep 9") None
           (Some freshToken) [Data Stdout hiLine; CancellationRequested] []
           None (Some (JS.lit "SIGTERM")) eq_refl eq_refl).
Defined.
